(** * Parking management: occupancy and billing state machine

    A shallow embedding of [parking/parking_management.py] (the helpers
    [get_min_coords], [round_invoice], [calc_invoice] and the class
    [ParkingManagement]) and of the annotation ordering performed by
    [CreateAnnotationView.post] in [parking/views.py]; further on, of
    [draw_polygon_with_number] and its call in [process_data], of the views
    that create, check and run the sessions ([CreateAnnotationView],
    [CheckAnnotationsView], [ProcessImageView], the loop of
    [RegisterView]) and of [validate_phone_number] in
    [parking/serializers.py].

    Conventions.
    - Python [int] is [Z].
    - [calc_invoice] is written over the operators of its arguments (class
      [Arithmetic]); its values on Python [float] are computed with the
      binary64 operations of the kernel ([PrimFloat]).
    - Inside a session, amounts of money are the rational values of the
      numbers held, compared with [==], and the operators on them are the
      exact ones. The theorems on sessions are about the accounts (which
      amount is added where, which counters move), not about digits that
      the rounding of [float] or [Decimal] would change; amounts are taken
      to stay in the range where these types hold the multiples of 100
      exactly (2^53 for [float], 28 digits for [Decimal]).
    - The coordinates of a detection box are the rational values of the
      float32 elements of a tensor; their sum and its half are rounded to
      float32 ([round_binary32]) as the tensor operations do.
    - A dict used as a map ([self.spots]) is a [gmap]; a dict used as a
      record ([self.pr_info], one spot) is a [Record].
    - The statements of a method that read and write the object are
      computations in the monad [M], which threads the object and may
      raise; what was mutated before a raise stays mutated. The loop of
      [process_data] passes the object on by hand.
    - [cv2.pointPolygonTest] belongs to OpenCV; it is the method of the
      class [PolygonTest], a parameter of everything that tests
      containment. The detector ([extract_tracks]) is not modelled either:
      its boxes and classes are the arguments of [process_data]. Of the
      drawing, what is kept is what can raise and what is written where. *)

From Stdlib Require Import ZArith QArith Qround Qabs Qpower Lia List Bool.
From Stdlib Require Import Permutation Sorted.
From Stdlib Require Import PrimFloat.
From stdpp Require Import base option list strings gmap.

Local Open Scope Z_scope.

(** ** Python values and arithmetic *)

Inductive exn : Set := ValueError | OSError | TypeError | KeyError.

Inductive result (A : Type) : Type :=
| Ok (a : A)
| Raise (e : exn).
Arguments Ok {A} a.
Arguments Raise {A} e.

(** The exceptions of the drawing and of the views come on top of those
    of the state machine. *)
Inductive error : Set :=
| Exn (e : exn)
| IndexError
| AttributeError.

Inductive outcome (A : Type) : Type :=
| Done (a : A)
| Fail (e : error).
Arguments Done {A} a.
Arguments Fail {A} e.

(** [a // b] on numbers: the floor of the quotient, as on [int] and
    [float] ([Decimal] truncates instead, which differs below zero only). *)
Definition py_floordiv (a b : Q) : Q := inject_Z (Qfloor (a / b)).

(** [a % b] on numbers: [a - b * (a // b)]. *)
Definition py_mod (a b : Q) : Q := (a - b * py_floordiv a b)%Q.

(** [int(x)]: truncation toward zero. *)
Definition py_int (x : Q) : Z := Z.quot (Qnum x) (Zpos (Qden x)).

(** The operators that [calc_invoice] applies to its arguments, whatever
    their type: [/], [*], and the conversion of an [int] literal. *)
Class Arithmetic (num : Type) : Type := {
  truediv : num -> num -> num;
  mul : num -> num -> num;
  of_int : Z -> num
}.

(** The exact operators on rationals. *)
#[global] Instance exact_arithmetic : Arithmetic Q :=
  {| truediv := Qdiv; mul := Qmult; of_int := inject_Z |}.

(** [float(n)] for an [int] below 2^53 in magnitude (the conversion is
    exact there). *)
Fixpoint float_of_positive (p : positive) : float :=
  match p with
  | xH => 1%float
  | xO p' => (2 * float_of_positive p')%float
  | xI p' => (2 * float_of_positive p' + 1)%float
  end.

Definition float_of_Z (n : Z) : float :=
  match n with
  | Z0 => 0%float
  | Zpos p => float_of_positive p
  | Zneg p => (- float_of_positive p)%float
  end.

(** Python [float]: IEEE 754 binary64, round to nearest, ties to even. An
    [int] operand below 2^53 in magnitude behaves as its [float]. *)
#[global] Instance binary64_arithmetic : Arithmetic float :=
  {| truediv := PrimFloat.div; mul := PrimFloat.mul; of_int := float_of_Z |}.

(** The integer nearest to a rational, ties to the even one. *)
Definition round_half_even (q : Q) : Z :=
  let f := Qfloor q in
  match Qcompare (q - inject_Z f) (1 # 2) with
  | Lt => f
  | Gt => f + 1
  | Eq => if Z.even f then f else f + 1
  end.

(** [2^e] for an integer [e] of either sign. *)
Definition pow2 (e : Z) : Q := (2 ^ e)%Q.

(** The integer part of the binary logarithm of [|q|], for [q] not 0. *)
Definition ilog2 (q : Q) : Z :=
  let k := Z.log2 (Z.abs (Qnum q)) - Z.log2 (Zpos (Qden q)) in
  if Qle_bool (pow2 k) (Qabs q) then k else k - 1.

(** The float32 value nearest to a rational, ties to even: 24 significant
    bits, the last one worth at least 2^-149. Overflow to infinity (beyond
    2^128) is not modelled. *)
Definition round_binary32 (q : Q) : Q :=
  if Qeq_bool q 0 then 0%Q
  else
    let e := Z.max (ilog2 q - 23) (-149) in
    (inject_Z (round_half_even (q / pow2 e)) * pow2 e)%Q.

(** [min(...)] over a generator: [ValueError] on an empty sequence. *)
Definition py_min (l : list Z) : result Z :=
  match l with
  | [] => Raise ValueError
  | x :: l' => Ok (fold_left Z.min l' x)
  end.

(** ** Module-level helpers of parking_management.py *)

(** A polygon annotation: the dict's ['points'] entry, a list of [x, y]
    in pixels (stored as int32 for the containment test). *)
Record region : Set := mkRegion { points : list (Z * Z) }.

Definition get_min_coords (polygon : region) : result (Z * Z) :=
  let points := points polygon in
  match py_min (map fst points) with
  | Raise e => Raise e
  | Ok min_x =>
      match py_min (map snd points) with
      | Raise e => Raise e
      | Ok min_y => Ok (min_y, min_x)
      end
  end.

Definition round_invoice (amount : Q) : Q := (py_floordiv amount 100 * 100)%Q.

Definition calc_invoice {num : Type} `{Arithmetic num}
    (time price_per_hour : num) : num :=
  mul (truediv price_per_hour (of_int 60)) time.

(** What the function asks OpenCV to draw: the colour of the outline and
    of the text, the number written, and the origin of the text. *)
Record label : Set := mkLabel {
  label_color : Z * Z * Z;
  label_number : Z;
  label_org : Z * Z
}.

(** [np.array(region["points"], dtype=np.int32).reshape((-1, 1, 2))]: an
    array of N rows, each row holding one point. *)
Definition reshape_points (r : region) : list (list (Z * Z)) :=
  map (fun p => [p]) (points r).

(** [pts_array[0]] is the first row ([IndexError] on an array without
    rows); [[:, 0]] and [[:, 1]] are its columns; [np.min] of an empty
    column is a [ValueError]. *)
Definition draw_polygon_with_number (pts_array : list (list (Z * Z)))
    (is_occupied : bool) (number : Z) (occupied_color available_color : Z * Z * Z)
  : outcome label :=
  let color := if is_occupied then occupied_color else available_color in
  match pts_array with
  | [] => Fail IndexError
  | row :: _ =>
      match py_min (map fst row) with
      | Raise e => Fail (Exn e)
      | Ok x_min =>
          match py_min (map snd row) with
          | Raise e => Fail (Exn e)
          | Ok y_min =>
              Done {| label_color := color; label_number := number;
                      label_org := (x_min, y_min - 10) |}
          end
      end
  end.

(** ** Annotation ordering (views.py, CreateAnnotationView.post) *)

(** Tuples compare lexicographically; [sorted] only ever asks [<]. *)
Definition key_lt (a b : Z * Z) : bool :=
  (fst a <? fst b) || ((fst a =? fst b) && (snd a <? snd b)).

(** [a <= b] on tuples, as [not (b < a)]. *)
Definition key_le (a b : Z * Z) : Prop := key_lt b a = false.

(** [sorted(l, key=f)] decorates each element with its key (the first key
    that raises aborts the call), sorts the decorated list and undecorates.
    The sort is stable: an element goes in front of the ones already placed
    unless one of them has a strictly smaller key. *)
Fixpoint decorate (l : list region) : result (list ((Z * Z) * region)) :=
  match l with
  | [] => Ok []
  | r :: l' =>
      match get_min_coords r with
      | Raise e => Raise e
      | Ok k =>
          match decorate l' with
          | Raise e => Raise e
          | Ok kl => Ok ((k, r) :: kl)
          end
      end
  end.

Fixpoint insert_by_key (x : (Z * Z) * region) (l : list ((Z * Z) * region))
  : list ((Z * Z) * region) :=
  match l with
  | [] => [x]
  | y :: l' => if key_lt (fst y) (fst x) then y :: insert_by_key x l' else x :: l
  end.

Definition sort_by_key (l : list ((Z * Z) * region)) : list ((Z * Z) * region) :=
  foldr insert_by_key [] l.

Definition sorting_annotation_data (annotation_data : list region)
  : result (list region) :=
  match decorate annotation_data with
  | Raise e => Raise e
  | Ok kl => Ok (map snd (sort_by_key kl))
  end.

(** Ids are positions: [enumerate(self.json)] with [idx + 1]. *)
Definition numbered (json : list region) : list (Z * region) :=
  imap (fun idx r => (Z.of_nat idx + 1, r)) json.

(** ** The class ParkingManagement: data *)

(** One entry of [self.spots]. *)
Record spot : Type := mkSpot {
  Time : Z;
  Invoice : Q;
  IsAvailable : bool
}.

(** [self.pr_info]. *)
Record info : Type := mkInfo {
  Occupancy : Z;
  Available : Z;
  total_cars : Z;
  total_time : Z;
  total_revenue : Q
}.

Record ParkingManagement : Type := mkPM {
  json : list region;
  pr_info : info;
  price_per_hour : option Q;
  spots : gmap Z spot
}.

Definition set_Time (v : Z) (s : spot) : spot :=
  {| Time := v; Invoice := Invoice s; IsAvailable := IsAvailable s |}.
Definition set_Invoice (v : Q) (s : spot) : spot :=
  {| Time := Time s; Invoice := v; IsAvailable := IsAvailable s |}.
Definition set_IsAvailable (v : bool) (s : spot) : spot :=
  {| Time := Time s; Invoice := Invoice s; IsAvailable := v |}.

Definition set_counts (fs es : Z) (i : info) : info :=
  {| Occupancy := fs; Available := es; total_cars := total_cars i;
     total_time := total_time i; total_revenue := total_revenue i |}.
Definition set_total_cars (v : Z) (i : info) : info :=
  {| Occupancy := Occupancy i; Available := Available i; total_cars := v;
     total_time := total_time i; total_revenue := total_revenue i |}.
Definition set_total_time (v : Z) (i : info) : info :=
  {| Occupancy := Occupancy i; Available := Available i;
     total_cars := total_cars i; total_time := v;
     total_revenue := total_revenue i |}.
Definition set_total_revenue (v : Q) (i : info) : info :=
  {| Occupancy := Occupancy i; Available := Available i;
     total_cars := total_cars i; total_time := total_time i;
     total_revenue := v |}.

Definition set_pr_info (i : info) (pm : ParkingManagement) : ParkingManagement :=
  {| json := json pm; pr_info := i; price_per_hour := price_per_hour pm;
     spots := spots pm |}.
Definition set_spots (m : gmap Z spot) (pm : ParkingManagement)
  : ParkingManagement :=
  {| json := json pm; pr_info := pr_info pm;
     price_per_hour := price_per_hour pm; spots := m |}.

(** ** The monad of methods: state that survives a raise *)

Definition M (A : Type) : Type :=
  ParkingManagement -> result A * ParkingManagement.

Definition ret {A} (a : A) : M A := fun pm => (Ok a, pm).

Definition bind {A B} (m : M A) (f : A -> M B) : M B :=
  fun pm =>
    match m pm with
    | (Ok a, pm') => f a pm'
    | (Raise e, pm') => (Raise e, pm')
    end.

Definition raise {A} (e : exn) : M A := fun pm => (Raise e, pm).

Declare Scope method_scope.
Delimit Scope method_scope with method.
Notation "x <- m ;; k" := (bind m (fun x => k))
  (at level 20, m at level 99, k at level 200, only parsing) : method_scope.
Notation "' pat <- m ;; k" := (bind m (fun pat => k))
  (at level 20, pat pattern, m at level 99, k at level 200, only parsing)
  : method_scope.
Notation "m ;; k" := (bind m (fun _ => k))
  (at level 100, k at level 200, right associativity, only parsing)
  : method_scope.
Local Open Scope method_scope.

(** [self.<field>] *)
Definition self {A} (field : ParkingManagement -> A) : M A :=
  fun pm => ret (field pm) pm.

(** [self.spots[k]]: [KeyError] on a missing key. *)
Definition spot_get (k : Z) : M spot :=
  fun pm =>
    match spots pm !! k with
    | Some s => ret s pm
    | None => raise KeyError pm
    end.

(** [self.spots[k][field] = v], as an update of the inner dict. *)
Definition spot_set (k : Z) (f : spot -> spot) : M unit :=
  fun pm =>
    match spots pm !! k with
    | Some s => ret tt (set_spots (<[k := f s]> (spots pm)) pm)
    | None => raise KeyError pm
    end.

(** [self.pr_info[field] = v] *)
Definition info_set (f : info -> info) : M unit :=
  fun pm => ret tt (set_pr_info (f (pr_info pm)) pm).

(** [calc_invoice(time=..., price_per_hour=self.price_per_hour)]:
    [None / 60] is a [TypeError]. *)
Definition calc_invoice_self (time : Z) : M Q :=
  fun pm =>
    match price_per_hour pm with
    | Some p => ret (calc_invoice (inject_Z time) p) pm
    | None => raise TypeError pm
    end.

(** ** The class ParkingManagement: methods *)

Definition new_spot : spot := {| Time := 0; Invoice := 0; IsAvailable := true |}.

(** [for idx in range(n): self.spots[idx+1] = {...}] *)
Definition init_spots (n : nat) : gmap Z spot :=
  foldl (fun m idx => <[Z.of_nat idx + 1 := new_spot]> m) ∅ (seq 0 n).

(** The constructor. [open_json] is the file system seen through
    [json.load(open(path))], which raises when the file cannot be opened
    or parsed; [json_file] is [self.CFG["json_file"]]. The base class
    constructor (model loading) is not part of this repository and is
    taken to succeed. *)
Definition __init__ (open_json : string -> result (list region))
    (price_per_hour : option Q) (json_file : option string)
  : result ParkingManagement :=
  match json_file with
  | None => Raise ValueError
  | Some path =>
      match open_json path with
      | Raise e => Raise e
      | Ok json =>
          Ok {| json := json;
                pr_info := {| Occupancy := 0; Available := 0; total_cars := 0;
                              total_time := 0; total_revenue := 0 |};
                price_per_hour := price_per_hour;
                spots := init_spots (length json) |}
      end
  end.

(** A detection box: [box[0..3]] = x1, y1, x2, y2. *)
Record box : Set := mkBox { box0 : Q; box1 : Q; box2 : Q; box3 : Q }.

(** [cv2.pointPolygonTest(pts, pt, False)]: positive inside, zero on an
    edge, negative outside. *)
Class PolygonTest : Type :=
  pointPolygonTest : list (Z * Z) -> Z * Z -> Q.

Section Methods.
Context `{PolygonTest}.

(** The centroid handed to the containment test:
    [int((box[0] + box[2]) / 2), int((box[1] + box[3]) / 2)], the sum and
    the quotient being those of float32 tensors. *)
Definition centroid (b : box) : Z * Z :=
  (py_int (round_binary32 (round_binary32 (box0 b + box2 b) / 2)),
   py_int (round_binary32 (round_binary32 (box1 b + box3 b) / 2))).

(** The inner loop of [process_data], with its [break]. *)
Fixpoint detect (pts_array : list (Z * Z)) (dets : list (box * Z)) : bool :=
  match dets with
  | [] => false
  | (b, cls) :: rest =>
      let dist := pointPolygonTest pts_array (centroid b) in
      if Qle_bool 0 dist then true else detect pts_array rest
  end.

Definition rg_occupied (r : region) (boxes : list box) (clss : list Z) : bool :=
  detect (points r) (zip boxes clss).

(** The four [if] statements, in the order of the source; each one reads
    [self.spots[idx+1]['IsAvailable']] again. *)
Definition update_spot (idx : Z) (rg_occupied : bool) : M unit :=
  s <- spot_get (idx + 1) ;;
  (if IsAvailable s && negb rg_occupied then ret tt else ret tt) ;;
  s <- spot_get (idx + 1) ;;
  (if IsAvailable s && rg_occupied then
     i <- self pr_info ;;
     info_set (set_total_cars (total_cars i + 1)) ;;
     spot_set (idx + 1) (set_IsAvailable false)
   else ret tt) ;;
  s <- spot_get (idx + 1) ;;
  (if negb (IsAvailable s) && negb rg_occupied then
     i <- self pr_info ;;
     s <- spot_get (idx + 1) ;;
     info_set (set_total_time (total_time i + Time s)) ;;
     spot_set (idx + 1) (set_Time 0) ;;
     i <- self pr_info ;;
     s <- spot_get (idx + 1) ;;
     info_set (set_total_revenue (total_revenue i + round_invoice (Invoice s))) ;;
     spot_set (idx + 1) (set_Invoice 0) ;;
     spot_set (idx + 1) (set_IsAvailable true)
   else ret tt) ;;
  s <- spot_get (idx + 1) ;;
  (if negb (IsAvailable s) && rg_occupied then
     s <- spot_get (idx + 1) ;;
     spot_set (idx + 1) (set_Time (Time s + 1)) ;;
     s <- spot_get (idx + 1) ;;
     v <- calc_invoice_self (Time s) ;;
     spot_set (idx + 1) (set_Invoice v)
   else ret tt).

(** [self.arc] and [self.occ]. *)
Definition arc : Z * Z * Z := (0, 0, 255).
Definition occ : Z * Z * Z := (0, 255, 0).

(** [for idx, region in enumerate(self.json)], carrying [fs] and [es]:
    the verdict, the counters of the frame, the call of
    [draw_polygon_with_number], then the four [if] statements. An
    exception of the drawing or of the [if] statements ends the loop; the
    labels drawn so far are collected. *)
Fixpoint regions_loop (boxes : list box) (clss : list Z)
    (idx : Z) (regions : list region) (fs es : Z) (drawn : list label)
    (pm : ParkingManagement)
  : outcome (Z * Z * list label) * ParkingManagement :=
  match regions with
  | [] => (Done (fs, es, drawn), pm)
  | r :: rest =>
      let verdict := rg_occupied r boxes clss in
      let '(fs, es) := if verdict then (fs + 1, es - 1) else (fs, es) in
      match draw_polygon_with_number (reshape_points r) verdict (idx + 1) occ arc with
      | Fail e => (Fail e, pm)
      | Done l =>
          match update_spot idx verdict pm with
          | (Raise e, pm') => (Fail (Exn e), pm')
          | (Ok _, pm') =>
              regions_loop boxes clss (idx + 1) rest fs es (drawn ++ [l]) pm'
          end
      end
  end.

(** [process_data]; [boxes] and [clss] are what [extract_tracks] stored.
    The counters of the frame are stored after the loop, when it has not
    raised. *)
Definition process_data (boxes : list box) (clss : list Z)
    (pm : ParkingManagement) : outcome (list label) * ParkingManagement :=
  match regions_loop boxes clss 0 (json pm) 0
          (Z.of_nat (length (json pm))) [] pm with
  | (Done (fs, es, drawn), pm') =>
      (Done drawn, set_pr_info (set_counts fs es (pr_info pm')) pm')
  | (Fail e, pm') => (Fail e, pm')
  end.

(** The objects a running service can hold: a constructed one, and
    whatever a call of [process_data] leaves behind, raise or not. *)
Inductive reachable : ParkingManagement -> Prop :=
| reachable_init open_json price json_file pm :
    __init__ open_json price json_file = Ok pm -> reachable pm
| reachable_frame boxes clss pm :
    reachable pm -> reachable (snd (process_data boxes clss pm)).

End Methods.

(** ** Summaries used by the proofs *)

(** What the loop and the frame-cycle do to the object when the drawing
    is left out, as computations of the monad (lemma
    [process_data_state]: this is [process_data] when every polygon has a
    point). *)
Fixpoint states_loop `{PolygonTest} (boxes : list box) (clss : list Z)
    (idx : Z) (regions : list region) (fs es : Z) : M (Z * Z) :=
  match regions with
  | [] => ret (fs, es)
  | r :: rest =>
      let occ := rg_occupied r boxes clss in
      let '(fs, es) := if occ then (fs + 1, es - 1) else (fs, es) in
      update_spot idx occ ;;
      states_loop boxes clss (idx + 1) rest fs es
  end.

Definition states_frame `{PolygonTest} (boxes : list box) (clss : list Z)
  : M unit :=
  regions <- self json ;;
  '(fs, es) <- states_loop boxes clss 0 regions 0 (Z.of_nat (length regions)) ;;
  info_set (set_counts fs es).

(** The net effect of [update_spot] on the record it addresses and on
    [pr_info] (lemma [update_spot_step]). *)
Definition spot_step (price : option Q) (occ : bool) (s : spot) (i : info)
  : result unit * spot * info :=
  let tick (s : spot) (i : info) :=
    match price with
    | Some p =>
        (Ok tt, mkSpot (Time s + 1) (calc_invoice (inject_Z (Time s + 1)) p) false, i)
    | None => (Raise TypeError, mkSpot (Time s + 1) (Invoice s) false, i)
    end in
  if IsAvailable s then
    if occ then tick s (set_total_cars (total_cars i + 1) i) else (Ok tt, s, i)
  else
    if occ then tick s i
    else (Ok tt, new_spot,
          set_total_revenue (total_revenue i + round_invoice (Invoice s))
            (set_total_time (total_time i + Time s) i)).

(** The key of a polygon that has one, for the proofs on [decorate]. *)
Definition key_of (r : region) : Z * Z :=
  match get_min_coords r with
  | Ok k => k
  | Raise _ => (0, 0)
  end.

(** Whether a polygon has the key [k]. *)
Definition has_key (k : Z * Z) (r : region) : bool :=
  match get_min_coords r with
  | Ok k' => (fst k =? fst k') && (snd k =? snd k')
  | Raise _ => false
  end.

(** The order of the decorated entries. *)
Definition by_key (x y : (Z * Z) * region) : Prop := key_le (fst x) (fst y).

(** Number of regions of the frame whose verdict is true. *)
Definition occupied_regions `{PolygonTest} (regions : list region)
    (boxes : list box) (clss : list Z) : Z :=
  Z.of_nat (length (List.filter (fun r => rg_occupied r boxes clss) regions)).

(** Every configured id has a record, and no other key has one. *)
Definition spots_cover (pm : ParkingManagement) : Prop :=
  forall k : Z,
    is_Some (spots pm !! k) <-> 1 <= k <= Z.of_nat (length (json pm)).

(** The invariant of the available records. *)
Definition available_reset (pm : ParkingManagement) : Prop :=
  forall (k : Z) (s : spot),
    spots pm !! k = Some s -> IsAvailable s = true ->
    Time s = 0 /\ (Invoice s == 0)%Q.

Definition revenue_in_hundreds (pm : ParkingManagement) : Prop :=
  exists n : Z, (total_revenue (pr_info pm) == inject_Z (100 * n))%Q.


(** ** Example data *)

(** An instance of the containment test to run the model on: the test of
    OpenCV on an axis-parallel rectangle, given by its corners. *)
Definition rect_pointPolygonTest : PolygonTest :=
  fun pts pt =>
    match pts with
    | [] => (-1)%Q
    | p :: ps =>
        let x_min := fold_left Z.min (map fst ps) (fst p) in
        let x_max := fold_left Z.max (map fst ps) (fst p) in
        let y_min := fold_left Z.min (map snd ps) (snd p) in
        let y_max := fold_left Z.max (map snd ps) (snd p) in
        let '(x, y) := pt in
        if (x_min <? x) && (x <? x_max) && (y_min <? y) && (y <? y_max) then 1%Q
        else if (x_min <=? x) && (x <=? x_max) && (y_min <=? y) && (y <=? y_max)
             then 0%Q else (-1)%Q
    end.

(** The polygon of the docstring of [get_min_coords], and one above it. *)
Definition region_a : region :=
  mkRegion [(1553, 48); (1718, 40); (1735, 128); (1577, 133)].
Definition region_b : region :=
  mkRegion [(500, 10); (600, 10); (600, 90); (500, 90)].

(** Two different polygons with the same top-left key. *)
Definition region_c : region := mkRegion [(0, 0); (10, 0); (0, 10)].
Definition region_d : region := mkRegion [(0, 0); (5, 0); (0, 5)].

(** A lot of one rectangular space, a car in it, and a file system. *)
Definition one_space : list region := [region_b].
Definition car : box := mkBox 510 20 590 80.
Definition lot_files (path : string) : result (list region) :=
  if decide (path = "lot.json"%string) then Ok one_space
  else if decide (path = "empty.json"%string) then Ok []
  else if decide (path = "segment.json"%string)
       then Ok [mkRegion [(0, 0); (10, 10)]]
  else Raise OSError.

(** A second rectangular space next to the first, a car in it, and the
    session built on the two at 6000 an hour. *)
Definition region_e : region :=
  mkRegion [(700, 10); (800, 10); (800, 90); (700, 90)].
Definition two_spaces : list region := [region_b; region_e].
Definition car_e : box := mkBox 710 20 790 80.
Definition two_space_session : ParkingManagement :=
  mkPM two_spaces (mkInfo 0 0 0 0 0) (Some 6000%Q) (init_spots 2).

(** Two sessions that the constructor returns although a frame-cycle on
    them raises: one without a price, one with a polygon without points. *)
Definition no_price_session : ParkingManagement :=
  mkPM one_space (mkInfo 0 0 0 0 0) None (init_spots 1).
Definition no_point_session : ParkingManagement :=
  mkPM [mkRegion []] (mkInfo 0 0 0 0 0) (Some 6000%Q) (init_spots 1).

(** The session built on ["lot.json"] at 6000 an hour, and the frames of a
    stay: the car is seen in four frames, then gone. *)
Definition lot_session : ParkingManagement :=
  mkPM one_space (mkInfo 0 0 0 0 0) (Some 6000%Q) (init_spots 1).

Definition frames (n : nat) (boxes : list box) (clss : list Z)
    (pm : ParkingManagement) : ParkingManagement :=
  Nat.iter n (fun pm => snd (@process_data rect_pointPolygonTest boxes clss pm)) pm.

(** ** Drawing *)

(** The labels of a frame when no polygon is empty: space [idx + 1] is
    numbered [idx + 1], in the colour of its verdict, 10 pixels above its
    first vertex. *)
Fixpoint frame_labels `{PolygonTest} (boxes : list box) (clss : list Z)
    (idx : Z) (regions : list region) : list label :=
  match regions with
  | [] => []
  | r :: rest =>
      match points r with
      | [] => []
      | p :: _ =>
          {| label_color := if rg_occupied r boxes clss then occ else arc;
             label_number := idx + 1;
             label_org := (fst p, snd p - 10) |}
          :: frame_labels boxes clss (idx + 1) rest
      end
  end.

(** ** views.py: the annotation file and the registry of sessions *)

Module Models.
(** models.py, class [Parking]: the fields the views read. There is no
    field, property or method called [name]. *)
Record Parking : Type := mkParking {
  id : Z;
  parking_name : string;
  price_per_hour : Q;
  image : string
}.
End Models.

(** [os.path.basename]: what follows the last slash. *)
Fixpoint basename_from (acc s : string) : string :=
  match s with
  | EmptyString => acc
  | String c s' =>
      if decide (String c EmptyString = "/"%string) then basename_from EmptyString s'
      else basename_from (String.append acc (String c EmptyString)) s'
  end.

Definition basename (s : string) : string := basename_from EmptyString s.

(** [os.path.join(a, b)] for a first component without trailing slash. *)
Definition path_join (a b : string) : string :=
  if String.prefix "/" b then b
  else String.append a (String.append "/" b).

(** [f"{image_basename}.json"] and [os.path.join('annotations', filename)],
    computed alike by the three views. *)
Definition annotation_filename (parking : Models.Parking) : string :=
  String.append (basename (Models.image parking)) ".json".

Definition annotation_path (parking : Models.Parking) : string :=
  path_join "annotations" (annotation_filename parking).

(** What the views share: the JSON files of [default_storage] (a file is
    named by its storage path; [default_storage.path] is one-to-one) and
    the module-level dict [parking_managers]. *)
Record World : Type := mkWorld {
  storage : gmap string (list region);
  parking_managers : gmap Z ParkingManagement
}.

(** [json.load(open(path))] on that storage. *)
Definition open_json (files : gmap string (list region)) (path : string)
  : result (list region) :=
  match files !! path with
  | Some content => Ok content
  | None => Raise OSError
  end.

Inductive body : Type :=
| ErrorBody (error : string)
| AnnotationSaved (file : string)
| AnnotationExists (found : bool) (annotation_file : string)
| Processed (drawn : list label) (spots_body : gmap Z spot) (pr_info_body : info).

Record Response : Type := mkResponse { data : body; status : Z }.

(** [CreateAnnotationView.post]; [parking] is [user.parking] when the user
    has one. [annotation_data] is [request.data] when it is a list of
    polygons whose points are pairs of integers; the view does not check
    that it is, and what it does on another payload is not modelled.
    [open_w] is what [default_storage.open(file_path, 'w')] does in the
    state of the media directory: it raises when the directory
    [annotations] is missing. The file is written before the session is
    built from it. *)
Definition CreateAnnotationView_post (parking : option Models.Parking)
    (annotation_data : list region) (open_w : string -> result unit) (w : World)
  : outcome Response * World :=
  match parking with
  | None => (Done (mkResponse (ErrorBody "Parking not found for user") 404), w)
  | Some parking =>
      if decide (Models.image parking = EmptyString)
      then (Done (mkResponse (ErrorBody "Parking has no associated image") 400), w)
      else
        match annotation_data with
        | [] => (Done (mkResponse (ErrorBody "Missing annotations data") 400), w)
        | _ :: _ =>
            match sorting_annotation_data annotation_data with
            | Raise e => (Fail (Exn e), w)
            | Ok sorted =>
                let file_path := annotation_path parking in
                match open_w file_path with
                | Raise e => (Fail (Exn e), w)
                | Ok _ =>
                    let files := <[file_path := sorted]> (storage w) in
                    match __init__ (open_json files)
                            (Some (Models.price_per_hour parking))
                            (Some file_path) with
                    | Raise e => (Fail (Exn e), mkWorld files (parking_managers w))
                    | Ok pm =>
                        (Done (mkResponse
                                 (AnnotationSaved (annotation_filename parking)) 201),
                         mkWorld files
                           (<[Models.id parking := pm]> (parking_managers w)))
                    end
                end
            end
        end
  end.

(** [parking.name] in [ProcessImageView.post]: the class has no such
    attribute. *)
Definition Parking_name (parking : Models.Parking) : outcome string :=
  Fail AttributeError.

(** [ProcessImageView.post]; [image_file] is [request.FILES.get('image')],
    given by what the detector finds in it. The session object is mutated
    in place, so what a raising frame did to it stays in the registry. *)
Definition ProcessImageView_post `{PolygonTest} (parking : option Models.Parking)
    (image_file : option (list box * list Z)) (w : World)
  : outcome Response * World :=
  match parking with
  | None => (Done (mkResponse (ErrorBody "Parking not found for user") 404), w)
  | Some parking =>
      if decide (Models.image parking = EmptyString)
      then (Done (mkResponse (ErrorBody "Parking has no associated image") 400), w)
      else
        let file_path := annotation_path parking in
        match storage w !! file_path with
        | None =>
            (Done (mkResponse
                     (ErrorBody "Parking has no annotation file, you must create annotation for your parking.")
                     400), w)
        | Some _ =>
            let created :=
              match parking_managers w !! Models.id parking with
              | Some _ => Ok (parking_managers w)
              | None =>
                  match __init__ (open_json (storage w))
                          (Some (Models.price_per_hour parking)) (Some file_path) with
                  | Raise e => Raise e
                  | Ok pm => Ok (<[Models.id parking := pm]> (parking_managers w))
                  end
              end in
            match created with
            | Raise e => (Fail (Exn e), w)
            | Ok managers =>
                match managers !! Models.id parking with
                | None =>
                    (Done (mkResponse
                             (ErrorBody "You must Create Annotaion for your park before monitoring")
                             404),
                     mkWorld (storage w) managers)
                | Some pm =>
                    match image_file with
                    | None =>
                        (Done (mkResponse (ErrorBody "No image file provided") 400),
                         mkWorld (storage w) managers)
                    | Some (boxes, clss) =>
                        let '(r, pm') := process_data boxes clss pm in
                        let w' := mkWorld (storage w)
                                    (<[Models.id parking := pm']> managers) in
                        match r with
                        | Fail e => (Fail e, w')
                        | Done drawn =>
                            match Parking_name parking with
                            | Fail e => (Fail e, w')
                            | Done _ =>
                                (Done (mkResponse
                                         (Processed drawn (spots pm') (pr_info pm')) 200),
                                 w')
                            end
                        end
                    end
                end
            end
        end
  end.

(** [CheckAnnotationsView.get]. *)
Definition CheckAnnotationsView_get (parking : option Models.Parking) (w : World)
  : Response :=
  match parking with
  | None => mkResponse (ErrorBody "Parking not found for this user") 404
  | Some parking =>
      if decide (Models.image parking = EmptyString)
      then mkResponse (ErrorBody "No image available for this parking") 404
      else
        mkResponse
          (AnnotationExists
             (bool_decide (is_Some (storage w !! annotation_path parking)))
             (annotation_filename parking))
          200
  end.



(** A parking for the examples, and a world that holds its annotation
    file but no session; a media directory in which every file can be
    written, and one without the directory of the annotations. *)
Definition writable (path : string) : result unit := Ok tt.
Definition no_directory (path : string) : result unit := Raise OSError.

Definition pk_lot : Models.Parking :=
  Models.mkParking 7 "Lot A" 6000%Q "parking_images/lot1.jpg".

Definition w_lot : World :=
  mkWorld {[ "annotations/lot1.jpg.json"%string := one_space ]} ∅.

(** ** serializers.py and RegisterView.post *)

(** What a field validator does: return the value, raise
    [ValidationError], or fail with another exception. Strings are taken
    to be ASCII, one character per element. *)
Inductive validation (A : Type) : Type :=
| Valid (a : A)
| Invalid (message : string)
| Crash (e : error).
Arguments Valid {A} a.
Arguments Invalid {A} message.
Arguments Crash {A} e.

(** [UserSerializer.validate_phone_number]; the three tests are joined by
    [or], so [value[2]] is only read when the two tests before it are
    false. *)
Definition validate_phone_number (value : string) : validation string :=
  if negb (String.prefix "09" value) then Invalid "Invalid phone number"
  else if negb (Nat.eqb (String.length value) 10) then Invalid "Invalid phone number"
  else
    match String.get 2 value with
    | None => Crash IndexError
    | Some c =>
        if decide (String c EmptyString ∈
                     ["3"; "4"; "5"; "6"; "8"; "9"]%string)
        then Valid value
        else Invalid "Invalid phone number"
    end.

(** [RegisterView.post]: the loop that sorts the items of [request.data]
    into [data['user']] and [data['parking']]. *)
Definition user_keys : list string :=
  ["username"; "phone_number"; "password"]%string.

Definition split_register_data {V : Type} (items : list (string * V))
  : gmap string V * gmap string V :=
  foldl (fun (d : gmap string V * gmap string V) (kv : string * V) =>
           if decide (fst kv ∈ user_keys)
           then (<[fst kv := snd kv]> (fst d), snd d)
           else (fst d, <[fst kv := snd kv]> (snd d)))
        (∅, ∅) items.

(** ** Measures of a session *)

(** The minutes of the sessions that are open: the sum of [Time] over
    [self.spots]. *)
Definition open_minutes (pm : ParkingManagement) : Z :=
  map_fold (fun (_ : Z) (s : spot) (acc : Z) => Time s + acc) 0 (spots pm).

(** [Time] is never negative, is at least 1 while a space is taken, and
    [Invoice] is the invoice of [Time] at the price of the session (0
    without a price). *)
Definition running_consistent (pm : ParkingManagement) : Prop :=
  forall (k : Z) (s : spot),
    spots pm !! k = Some s ->
    0 <= Time s /\ (IsAvailable s = false -> 1 <= Time s) /\
    (Invoice s ==
       match price_per_hour pm with
       | Some p => calc_invoice (inject_Z (Time s)) p
       | None => 0
       end)%Q.

(** A service handling frames one after the other on the same object,
    whatever each call returns. *)
Fixpoint run `{PolygonTest} (frames : list (list box * list Z))
    (pm : ParkingManagement) : ParkingManagement :=
  match frames with
  | [] => pm
  | (boxes, clss) :: rest => run rest (snd (process_data boxes clss pm))
  end.

(** Number of pairs (frame, region) with a true verdict. *)
Fixpoint occupied_verdicts `{PolygonTest} (regions : list region)
    (frames : list (list box * list Z)) : Z :=
  match frames with
  | [] => 0
  | (boxes, clss) :: rest =>
      occupied_regions regions boxes clss + occupied_verdicts regions rest
  end.

(** ** Facts on the arithmetic *)

Lemma py_floordiv_le (a : Q) (b : Q) :
  (0 < b)%Q -> (py_floordiv a b * b <= a)%Q.
Proof.
  intros Hb. unfold py_floordiv.
  assert (H := Qfloor_le (a / b)).
  apply (Qmult_le_compat_r _ _ b) in H; [|apply Qlt_le_weak; exact Hb].
  eapply Qle_trans; [exact H|].
  unfold Qdiv. rewrite <- Qmult_assoc.
  rewrite (Qmult_comm (/ b)), Qmult_inv_r, Qmult_1_r; [apply Qle_refl|].
  intros E. rewrite E in Hb. discriminate.
Qed.

Lemma py_floordiv_inject_Z (n : Z) (k : Q) (d : Z) :
  (0 < d)%Z -> (k == inject_Z n * inject_Z d)%Q -> py_floordiv k (inject_Z d) = inject_Z n.
Proof.
  intros Hd Hk. unfold py_floordiv. f_equal.
  assert (E : (k / inject_Z d == inject_Z n)%Q).
  { rewrite Hk. apply Qdiv_mult_l. unfold inject_Z, Qeq. simpl. lia. }
  rewrite E. apply Qfloor_Z.
Qed.

Lemma round_invoice_le (amount : Q) : (round_invoice amount <= amount)%Q.
Proof. unfold round_invoice. apply py_floordiv_le. reflexivity. Qed.

Lemma round_invoice_multiple (amount : Q) :
  (round_invoice amount == inject_Z (100 * Qfloor (amount / 100)))%Q.
Proof.
  unfold round_invoice, py_floordiv. rewrite inject_Z_mult.
  apply Qmult_comm.
Qed.

#[global] Instance py_floordiv_proper : Proper (Qeq ==> Qeq ==> Qeq) py_floordiv.
Proof.
  intros a a' Ha b b' Hb. unfold py_floordiv.
  assert (E : (a / b == a' / b')%Q) by (rewrite Ha, Hb; reflexivity).
  rewrite (Qfloor_comp _ _ E). reflexivity.
Qed.

#[global] Instance py_mod_proper : Proper (Qeq ==> Qeq ==> Qeq) py_mod.
Proof.
  intros a a' Ha b b' Hb. unfold py_mod. rewrite Ha, Hb. reflexivity.
Qed.

Lemma py_mod_multiple (k : Z) : (py_mod (inject_Z (100 * k)) 100 == 0)%Q.
Proof.
  unfold py_mod. change 100%Q with (inject_Z 100).
  rewrite (py_floordiv_inject_Z k (inject_Z (100 * k)) 100); [|lia|].
  - rewrite inject_Z_mult. ring.
  - rewrite inject_Z_mult. apply Qmult_comm.
Qed.

(** On a Python [int] the model is the integer floor division. *)
Lemma round_invoice_int (n : Z) :
  (round_invoice (inject_Z n) == inject_Z (n / 100 * 100))%Q.
Proof.
  unfold round_invoice, py_floordiv.
  replace (Qfloor (inject_Z n / 100)) with (n / 100)%Z.
  - rewrite inject_Z_mult. reflexivity.
  - unfold Qfloor, Qdiv, Qmult, Qinv, inject_Z. simpl. f_equal. lia.
Qed.

(** ** Rounding to float32 *)





#[global] Instance round_half_even_proper : Proper (Qeq ==> eq) round_half_even.
Proof.
  intros x y E. unfold round_half_even. rewrite (Qfloor_comp _ _ E).
  assert (E' : (x - inject_Z (Qfloor y) == y - inject_Z (Qfloor y))%Q)
    by (rewrite E; reflexivity).
  rewrite (Qcompare_comp _ _ E' _ _ (Qeq_refl (1 # 2))). reflexivity.
Qed.




Lemma py_int_nonneg (x : Q) : (0 <= x)%Q -> py_int x = Qfloor x.
Proof.
  destruct x as [n d]. unfold py_int, Qfloor, Qle. simpl. intros H.
  apply Z.quot_div_nonneg; lia.
Qed.

Lemma py_int_opp (x : Q) : py_int (- x) = - py_int x.
Proof.
  destruct x as [n d]. unfold py_int. simpl. apply Z.quot_opp_l. lia.
Qed.

#[global] Instance py_int_proper : Proper (Qeq ==> eq) py_int.
Proof.
  intros x y E. destruct (Qlt_le_dec x 0) as [Hx|Hx].
  - assert (Hy : (y < 0)%Q) by (rewrite <- E; exact Hx).
    assert (Ex := py_int_opp x). assert (Ey := py_int_opp y).
    assert (Eo : py_int (- x) = py_int (- y)).
    { rewrite !py_int_nonneg.
      - apply Qfloor_comp. rewrite E. reflexivity.
      - apply (Qopp_le_compat y 0), Qlt_le_weak, Hy.
      - apply (Qopp_le_compat x 0), Qlt_le_weak, Hx. }
    lia.
  - assert (Hy : (0 <= y)%Q) by (rewrite <- E; exact Hx).
    rewrite !py_int_nonneg by assumption. apply Qfloor_comp, E.
Qed.



(** On rationals [calc_invoice] is the exact expression. *)
Lemma calc_invoice_exact (time price : Q) :
  calc_invoice time price = (price / 60 * time)%Q.
Proof. reflexivity. Qed.

(** ** The monad *)

Lemma bind_Raise {A B} (m : M A) (f : A -> M B) pm e pm' :
  m pm = (Raise e, pm') -> bind m f pm = (Raise e, pm').
Proof. intros E. unfold bind. rewrite E. reflexivity. Qed.

(** ** One record, one frame *)

Ltac run_method Hs :=
  unfold bind, spot_get, spot_set, self, info_set, calc_invoice_self, ret,
    raise, set_spots, set_pr_info; simpl;
  repeat (progress (rewrite ?Hs, ?lookup_insert_eq; simpl));
  rewrite ?insert_insert_eq.

Lemma update_spot_step (idx : Z) (occ : bool) pm s :
  spots pm !! (idx + 1) = Some s ->
  update_spot idx occ pm =
    let '(r, s', i') := spot_step (price_per_hour pm) occ s (pr_info pm) in
    (r, mkPM (json pm) i' (price_per_hour pm) (<[idx + 1 := s']> (spots pm))).
Proof.
  intros Hs. unfold update_spot, spot_step.
  destruct pm as [js i price m]; simpl in *.
  destruct s as [t v av]; simpl.
  destruct av, occ; simpl.
  - run_method Hs. destruct price; simpl; run_method Hs; reflexivity.
  - run_method Hs. rewrite insert_id by exact Hs. reflexivity.
  - run_method Hs. destruct price; simpl; run_method Hs; reflexivity.
  - run_method Hs. reflexivity.
Qed.

Lemma update_spot_missing (idx : Z) (occ : bool) pm :
  spots pm !! (idx + 1) = None -> update_spot idx occ pm = (Raise KeyError, pm).
Proof.
  intros Hs. unfold update_spot. apply bind_Raise.
  unfold spot_get. rewrite Hs. reflexivity.
Qed.

Lemma spot_step_counts price occ s i r s' i' :
  spot_step price occ s i = (r, s', i') ->
  Occupancy i' = Occupancy i /\ Available i' = Available i.
Proof.
  unfold spot_step. intros E.
  destruct (IsAvailable s), occ, price; inversion E; subst; auto.
Qed.

Lemma spot_step_Ok p occ s i :
  exists s' i', spot_step (Some p) occ s i = (Ok tt, s', i').
Proof. unfold spot_step. destruct (IsAvailable s), occ; eauto. Qed.

Lemma spot_step_idle price s i :
  IsAvailable s = true -> spot_step price false s i = (Ok tt, s, i).
Proof. intros E. unfold spot_step. rewrite E. reflexivity. Qed.

(** What [update_spot] never touches. *)
Lemma update_spot_frame (idx : Z) (occ : bool) pm :
  let pm' := snd (update_spot idx occ pm) in
  json pm' = json pm /\ price_per_hour pm' = price_per_hour pm /\
  Occupancy (pr_info pm') = Occupancy (pr_info pm) /\
  Available (pr_info pm') = Available (pr_info pm) /\
  (forall k, k <> idx + 1 -> spots pm' !! k = spots pm !! k) /\
  (forall k, is_Some (spots pm' !! k) <-> is_Some (spots pm !! k)).
Proof.
  destruct (spots pm !! (idx + 1)) as [s|] eqn:Hs.
  - rewrite (update_spot_step _ _ _ _ Hs).
    destruct (spot_step (price_per_hour pm) occ s (pr_info pm)) as [[r s'] i'] eqn:E.
    apply spot_step_counts in E as [Ho Ha]. simpl.
    repeat split; auto.
    + intros k Hk. apply lookup_insert_ne. congruence.
    + destruct (decide (k = idx + 1)) as [->|Hk].
      * rewrite Hs. eauto.
      * rewrite lookup_insert_ne by congruence. auto.
    + destruct (decide (k = idx + 1)) as [->|Hk].
      * rewrite lookup_insert_eq. eauto.
      * rewrite lookup_insert_ne by congruence. auto.
  - rewrite (update_spot_missing _ _ _ Hs). simpl. repeat split; auto.
Qed.

Lemma update_spot_idle (idx : Z) pm s :
  spots pm !! (idx + 1) = Some s -> IsAvailable s = true ->
  update_spot idx false pm = (Ok tt, pm).
Proof.
  intros Hs Ha. rewrite (update_spot_step _ _ _ _ Hs), (spot_step_idle _ _ _ Ha).
  rewrite insert_id by exact Hs. destruct pm; reflexivity.
Qed.

Lemma update_spot_Ok (idx : Z) (occ : bool) pm :
  is_Some (price_per_hour pm) -> is_Some (spots pm !! (idx + 1)) ->
  fst (update_spot idx occ pm) = Ok tt.
Proof.
  intros [p Hp] [s Hs]. rewrite (update_spot_step _ _ _ _ Hs), Hp.
  destruct (spot_step_Ok p occ s (pr_info pm)) as (s' & i' & ->). reflexivity.
Qed.

(** ** The loop and the frame without the drawing *)

Section Frame.
Context `{PolygonTest}.
Variables (boxes : list box) (clss : list Z).

Lemma states_loop_cons idx r rest fs es pm :
  states_loop boxes clss idx (r :: rest) fs es pm =
    let occ := rg_occupied r boxes clss in
    match update_spot idx occ pm with
    | (Ok _, pm') =>
        states_loop boxes clss (idx + 1) rest
          (if occ then fs + 1 else fs) (if occ then es - 1 else es) pm'
    | (Raise e, pm') => (Raise e, pm')
    end.
Proof.
  simpl. unfold bind. destruct (rg_occupied r boxes clss); reflexivity.
Qed.

(** A property kept by every [update_spot] is kept by the loop, whether
    it runs to its end or stops at a raise. *)
Lemma states_loop_preserves (P : ParkingManagement -> Prop) :
  (forall idx occ pm, P pm -> P (snd (update_spot idx occ pm))) ->
  forall regions idx fs es pm,
    P pm -> P (snd (states_loop boxes clss idx regions fs es pm)).
Proof.
  intros Hstep regions.
  induction regions as [|r rest IH]; intros idx fs es pm HP.
  - exact HP.
  - rewrite states_loop_cons. cbv zeta.
    specialize (Hstep idx (rg_occupied r boxes clss) pm HP).
    destruct (update_spot idx (rg_occupied r boxes clss) pm) as [[[]|e] pm'];
      simpl in *; auto.
Qed.

Lemma states_frame_unfold pm :
  states_frame boxes clss pm =
    match states_loop boxes clss 0 (json pm) 0 (Z.of_nat (length (json pm))) pm with
    | (Ok (fs, es), pm') => (Ok tt, set_pr_info (set_counts fs es (pr_info pm')) pm')
    | (Raise e, pm') => (Raise e, pm')
    end.
Proof.
  unfold states_frame, bind, self, info_set, ret.
  destruct (states_loop _ _ _ _ _ _ pm) as [[[fs es]|e] pm']; reflexivity.
Qed.

Lemma states_frame_preserves (P : ParkingManagement -> Prop) :
  (forall idx occ pm, P pm -> P (snd (update_spot idx occ pm))) ->
  (forall fs es pm, P pm -> P (set_pr_info (set_counts fs es (pr_info pm)) pm)) ->
  forall pm, P pm -> P (snd (states_frame boxes clss pm)).
Proof.
  intros Hstep Hcount pm HP. rewrite states_frame_unfold.
  assert (HP' := states_loop_preserves P Hstep (json pm) 0 0
                   (Z.of_nat (length (json pm))) pm HP).
  destruct (states_loop _ _ _ _ _ _ pm) as [[[fs es]|e] pm']; simpl in *; auto.
Qed.

Lemma states_frame_json pm :
  json (snd (states_frame boxes clss pm)) = json pm.
Proof.
  apply (states_frame_preserves (fun x => json x = json pm)); auto.
  intros idx occ pm0 E.
  destruct (update_spot_frame idx occ pm0) as (-> & _). exact E.
Qed.

(** When the loop ends normally, [fs] went up and [es] went down by the
    number of occupied regions. *)
Lemma states_loop_counts regions :
  forall idx fs es pm fs' es' pm',
    states_loop boxes clss idx regions fs es pm = (Ok (fs', es'), pm') ->
    fs' = fs + occupied_regions regions boxes clss /\
    es' = es - occupied_regions regions boxes clss.
Proof.
  unfold occupied_regions.
  induction regions as [|r rest IH]; intros idx fs es pm fs' es' pm' E.
  - inversion E; subst. simpl. lia.
  - rewrite states_loop_cons in E. cbv zeta in E. simpl.
    destruct (update_spot idx (rg_occupied r boxes clss) pm) as [[[]|e] pm1];
      [|discriminate].
    apply IH in E. destruct (rg_occupied r boxes clss); simpl length; lia.
Qed.

(** With a price and a record for every index, the loop does not raise. *)
Lemma states_loop_Ok regions :
  forall idx fs es pm,
    is_Some (price_per_hour pm) ->
    (forall j, 0 <= j < Z.of_nat (length regions) ->
               is_Some (spots pm !! (idx + j + 1))) ->
    exists fs' es' pm',
      states_loop boxes clss idx regions fs es pm = (Ok (fs', es'), pm').
Proof.
  induction regions as [|r rest IH]; intros idx fs es pm Hp Hk.
  - simpl. unfold ret. eauto.
  - rewrite states_loop_cons. cbv zeta.
    assert (Hok := update_spot_Ok idx (rg_occupied r boxes clss) pm Hp).
    destruct (update_spot_frame idx (rg_occupied r boxes clss) pm)
      as (_ & Hprice & _ & _ & _ & Hdom).
    destruct (update_spot idx (rg_occupied r boxes clss) pm) as [[[]|e] pm1];
      simpl in *.
    + apply IH.
      * rewrite Hprice. exact Hp.
      * intros j Hj. apply Hdom.
        replace (idx + 1 + j + 1) with (idx + (j + 1) + 1) by lia.
        apply Hk. rewrite Nat2Z.inj_succ. lia.
    + exfalso. assert (Hin : is_Some (spots pm !! (idx + 1))).
      { replace (idx + 1) with (idx + 0 + 1) by lia. apply Hk.
        rewrite Nat2Z.inj_succ. lia. }
      specialize (Hok Hin). discriminate.
Qed.

End Frame.

(** ** The loop over the regions and the whole frame *)

Lemma draw_first_vertex (r : region) (p : Z * Z) (rest : list (Z * Z))
    (is_occupied : bool) (number : Z) (c1 c2 : Z * Z * Z) :
  points r = p :: rest ->
  draw_polygon_with_number (reshape_points r) is_occupied number c1 c2 =
    Done {| label_color := if is_occupied then c1 else c2;
            label_number := number;
            label_org := (fst p, snd p - 10) |}.
Proof. intros E. unfold reshape_points. rewrite E. reflexivity. Qed.

Lemma draw_no_vertex (r : region) (is_occupied : bool) (number : Z)
    (c1 c2 : Z * Z * Z) :
  points r = [] ->
  draw_polygon_with_number (reshape_points r) is_occupied number c1 c2 =
    Fail IndexError.
Proof. intros E. unfold reshape_points. rewrite E. reflexivity. Qed.

Section Drawn.
Context `{PolygonTest}.
Variables (boxes : list box) (clss : list Z).

Lemma regions_loop_cons idx r rest fs es drawn pm :
  regions_loop boxes clss idx (r :: rest) fs es drawn pm =
    let verdict := rg_occupied r boxes clss in
    match draw_polygon_with_number (reshape_points r) verdict (idx + 1) occ arc with
    | Fail e => (Fail e, pm)
    | Done l =>
        match update_spot idx verdict pm with
        | (Raise e, pm') => (Fail (Exn e), pm')
        | (Ok _, pm') =>
            regions_loop boxes clss (idx + 1) rest
              (if verdict then fs + 1 else fs) (if verdict then es - 1 else es)
              (drawn ++ [l]) pm'
        end
    end.
Proof. simpl. destruct (rg_occupied r boxes clss); reflexivity. Qed.

(** A property kept by every [update_spot] is kept by the loop wherever it
    stops: at its end, at a raise of the state machine, or at a raise of
    the drawing. *)
Lemma regions_loop_preserves (P : ParkingManagement -> Prop) :
  (forall idx v pm, P pm -> P (snd (update_spot idx v pm))) ->
  forall regions idx fs es drawn pm,
    P pm -> P (snd (regions_loop boxes clss idx regions fs es drawn pm)).
Proof.
  intros Hstep regions.
  induction regions as [|r rest IH]; intros idx fs es drawn pm HP.
  - exact HP.
  - rewrite regions_loop_cons. cbv zeta.
    destruct (draw_polygon_with_number _ _ _ _ _) as [l|e]; [|exact HP].
    specialize (Hstep idx (rg_occupied r boxes clss) pm HP).
    destruct (update_spot idx (rg_occupied r boxes clss) pm) as [[[]|e] pm'];
      simpl in *; auto.
Qed.

Lemma process_data_preserves (P : ParkingManagement -> Prop) :
  (forall idx v pm, P pm -> P (snd (update_spot idx v pm))) ->
  (forall fs es pm, P pm -> P (set_pr_info (set_counts fs es (pr_info pm)) pm)) ->
  forall pm, P pm -> P (snd (process_data boxes clss pm)).
Proof.
  intros Hstep Hcount pm HP. unfold process_data.
  assert (HP' := regions_loop_preserves P Hstep (json pm) 0 0
                   (Z.of_nat (length (json pm))) [] pm HP).
  destruct (regions_loop _ _ _ _ _ _ _ pm) as [[[[fs es] drawn]|e] pm'];
    simpl in *; auto.
Qed.

(** When every polygon has a point the drawing never raises, and the loop
    does to the object what the state machine alone does. *)
Lemma regions_loop_state regions :
  Forall (fun r => points r <> []) regions ->
  forall idx fs es drawn pm,
    match states_loop boxes clss idx regions fs es pm with
    | (Ok (fs', es'), pm') =>
        exists drawn',
          regions_loop boxes clss idx regions fs es drawn pm =
            (Done (fs', es', drawn ++ drawn'), pm') /\
          length drawn' = length regions
    | (Raise e, pm') =>
        regions_loop boxes clss idx regions fs es drawn pm =
          (Fail (Exn e), pm')
    end.
Proof.
  induction 1 as [|r rest Hr _ IH]; intros idx fs es drawn pm.
  - simpl. unfold ret. exists []. rewrite app_nil_r. auto.
  - rewrite states_loop_cons, regions_loop_cons. cbv zeta.
    destruct (points r) as [|p ps] eqn:Hp; [congruence|].
    rewrite (draw_first_vertex r p ps _ _ _ _ Hp).
    destruct (update_spot idx (rg_occupied r boxes clss) pm) as [[[]|e] pm1];
      [|reflexivity].
    specialize (IH (idx + 1)
                   (if rg_occupied r boxes clss then fs + 1 else fs)
                   (if rg_occupied r boxes clss then es - 1 else es)
                   (drawn ++ [{| label_color := if rg_occupied r boxes clss then occ else arc;
                                 label_number := idx + 1;
                                 label_org := (fst p, snd p - 10) |}]) pm1).
    destruct (states_loop boxes clss (idx + 1) rest _ _ pm1) as [[[fs' es']|e] pm'].
    + destruct IH as (drawn' & -> & Hlen).
      eexists (_ :: drawn'). rewrite <- app_assoc. simpl.
      split; [reflexivity | congruence].
    + exact IH.
Qed.

Lemma process_data_state pm :
  Forall (fun r => points r <> []) (json pm) ->
  snd (process_data boxes clss pm) = snd (states_frame boxes clss pm) /\
  match fst (states_frame boxes clss pm) with
  | Ok _ =>
      exists drawn,
        fst (process_data boxes clss pm) = Done drawn /\
        length drawn = length (json pm)
  | Raise e => fst (process_data boxes clss pm) = Fail (Exn e)
  end.
Proof.
  intros Hne. rewrite states_frame_unfold. unfold process_data.
  assert (Hst := regions_loop_state (json pm) Hne 0 0
                   (Z.of_nat (length (json pm))) [] pm).
  destruct (states_loop boxes clss 0 (json pm) 0 (Z.of_nat (length (json pm))) pm)
    as [[[fs es]|e] pm'].
  - destruct Hst as (drawn & -> & Hlen). simpl. split; [reflexivity|].
    exists drawn. auto.
  - rewrite Hst. simpl. auto.
Qed.

End Drawn.

Lemma regions_loop_ext `{PolygonTest} boxes clss boxes' clss' regions :
  (forall r, In r regions ->
             rg_occupied r boxes clss = rg_occupied r boxes' clss') ->
  forall idx fs es drawn pm,
    regions_loop boxes clss idx regions fs es drawn pm =
    regions_loop boxes' clss' idx regions fs es drawn pm.
Proof.
  induction regions as [|r rest IH]; intros Hv idx fs es drawn pm; [reflexivity|].
  rewrite !regions_loop_cons. cbv zeta.
  rewrite <- (Hv r (or_introl eq_refl)).
  destruct (draw_polygon_with_number _ _ _ _ _) as [l|e]; [|reflexivity].
  destruct (update_spot idx (rg_occupied r boxes clss) pm) as [[[]|e] pm1];
    [|reflexivity].
  apply IH. intros r' Hr'. apply Hv. right. exact Hr'.
Qed.

Lemma states_frame_Ok `{PolygonTest} boxes clss pm :
  spots_cover pm -> is_Some (price_per_hour pm) ->
  fst (states_frame boxes clss pm) = Ok tt.
Proof.
  intros Hr Hp. rewrite states_frame_unfold.
  destruct (states_loop_Ok boxes clss (json pm) 0 0
              (Z.of_nat (length (json pm))) pm Hp) as (fs & es & pm' & ->).
  - intros j Hj. apply Hr. lia.
  - reflexivity.
Qed.

(** ** The constructor *)

Lemma init_spots_lookup_from (n : nat) :
  forall (a : nat) (m : gmap Z spot) (k : Z),
    foldl (fun m idx => <[Z.of_nat idx + 1 := new_spot]> m) m (seq a n) !! k =
      if decide (Z.of_nat a + 1 <= k <= Z.of_nat a + Z.of_nat n)
      then Some new_spot else m !! k.
Proof.
  induction n as [|n IH]; intros a m k; simpl.
  - case_decide; [lia | reflexivity].
  - rewrite IH. repeat case_decide; try reflexivity; try lia.
    + destruct (decide (k = Z.of_nat a + 1)) as [->|Hk].
      * apply lookup_insert_eq.
      * lia.
    + apply lookup_insert_ne. lia.
Qed.

Lemma init_spots_lookup (n : nat) (k : Z) :
  init_spots n !! k =
    if decide (1 <= k <= Z.of_nat n) then Some new_spot else None.
Proof.
  unfold init_spots. rewrite init_spots_lookup_from. simpl.
  repeat case_decide; try reflexivity; lia.
Qed.

Lemma init_Ok open_json price json_file pm :
  __init__ open_json price json_file = Ok pm ->
  exists path,
    json_file = Some path /\ open_json path = Ok (json pm) /\
    price_per_hour pm = price /\
    pr_info pm = mkInfo 0 0 0 0 0 /\
    spots pm = init_spots (length (json pm)).
Proof.
  unfold __init__. destruct json_file as [path|]; [|discriminate].
  destruct (open_json path) as [js|e] eqn:E; [|discriminate].
  intros [= <-]. exists path. simpl. auto.
Qed.


(** ** Invariants of the reachable objects *)

Section Invariants.
Context `{PolygonTest}.

Lemma reachable_invariant (P : ParkingManagement -> Prop) :
  (forall open_json price json_file pm,
      __init__ open_json price json_file = Ok pm -> P pm) ->
  (forall idx v pm, P pm -> P (snd (update_spot idx v pm))) ->
  (forall fs es pm, P pm -> P (set_pr_info (set_counts fs es (pr_info pm)) pm)) ->
  forall pm, reachable pm -> P pm.
Proof.
  intros Hinit Hstep Hcount pm Hr.
  induction Hr as [open_json price json_file pm E|boxes clss pm Hr IH].
  - eapply Hinit, E.
  - apply process_data_preserves; assumption.
Qed.

Lemma reachable_spots_cover pm : reachable pm -> spots_cover pm.
Proof.
  apply reachable_invariant; unfold spots_cover.
  - intros open_json price json_file pm0 E k.
    apply init_Ok in E as (path & _ & _ & _ & _ & ->).
    rewrite init_spots_lookup. case_decide.
    + split; [auto | eauto].
    + split; [intros [? [=]] | intros; lia].
  - intros idx v pm0 HP k.
    destruct (update_spot_frame idx v pm0) as (-> & _ & _ & _ & _ & ->).
    apply HP.
  - intros fs es pm0 HP k. apply HP.
Qed.

Lemma reachable_json_price boxes clss pm :
  json (snd (process_data boxes clss pm)) = json pm /\
  price_per_hour (snd (process_data boxes clss pm)) = price_per_hour pm.
Proof.
  apply (process_data_preserves boxes clss
           (fun x => json x = json pm /\ price_per_hour x = price_per_hour pm));
    auto.
  intros idx v pm0 [E1 E2].
  destruct (update_spot_frame idx v pm0) as (-> & -> & _). auto.
Qed.

Lemma reachable_available_reset pm : reachable pm -> available_reset pm.
Proof.
  apply reachable_invariant; unfold available_reset.
  - intros open_json price json_file pm0 E k s Hs Ha.
    apply init_Ok in E as (path & _ & _ & _ & _ & E).
    rewrite E, init_spots_lookup in Hs. case_decide; [|discriminate].
    injection Hs as <-. split; reflexivity.
  - intros idx occ pm0 HP k s.
    destruct (decide (k = idx + 1)) as [->|Hk].
    + destruct (spots pm0 !! (idx + 1)) as [s0|] eqn:Hs0.
      * rewrite (update_spot_step _ _ _ _ Hs0).
        unfold spot_step.
        destruct (IsAvailable s0) eqn:Ha0, occ, (price_per_hour pm0);
          simpl; rewrite lookup_insert_eq; intros [= <-]; simpl;
          try discriminate; intros _.
        -- exact (HP _ _ Hs0 Ha0).
        -- exact (HP _ _ Hs0 Ha0).
        -- split; reflexivity.
        -- split; reflexivity.
      * rewrite (update_spot_missing _ _ _ Hs0). simpl. congruence.
    + destruct (update_spot_frame idx occ pm0) as (_ & _ & _ & _ & Hne & _).
      rewrite (Hne k Hk). apply HP.
  - intros fs es pm0 HP k s. apply HP.
Qed.

Lemma reachable_revenue_in_hundreds pm : reachable pm -> revenue_in_hundreds pm.
Proof.
  apply reachable_invariant; unfold revenue_in_hundreds.
  - intros open_json price json_file pm0 E.
    apply init_Ok in E as (path & _ & _ & _ & -> & _).
    exists 0. reflexivity.
  - intros idx occ pm0 [n Hn].
    destruct (spots pm0 !! (idx + 1)) as [s0|] eqn:Hs0.
    + rewrite (update_spot_step _ _ _ _ Hs0). unfold spot_step.
      destruct (IsAvailable s0), occ, (price_per_hour pm0); simpl;
        try (exists n; exact Hn).
      * exists (n + Qfloor (Invoice s0 / 100)).
        rewrite Hn, round_invoice_multiple, <- inject_Z_plus.
        apply inject_Z_injective. lia.
      * exists (n + Qfloor (Invoice s0 / 100)).
        rewrite Hn, round_invoice_multiple, <- inject_Z_plus.
        apply inject_Z_injective. lia.
    + rewrite (update_spot_missing _ _ _ Hs0). exists n. exact Hn.
  - intros fs es pm0 [n Hn]. exists n. exact Hn.
Qed.

Lemma run_reachable (frames : list (list box * list Z)) pm :
  reachable pm -> reachable (run frames pm).
Proof.
  revert pm. induction frames as [|[boxes clss] rest IH]; intros pm Hr; simpl.
  - exact Hr.
  - apply IH, reachable_frame, Hr.
Qed.

Lemma run_json_price (frames : list (list box * list Z)) pm :
  json (run frames pm) = json pm /\
  price_per_hour (run frames pm) = price_per_hour pm.
Proof.
  revert pm. induction frames as [|[boxes clss] rest IH]; intros pm; simpl.
  - auto.
  - destruct (IH (snd (process_data boxes clss pm))) as [-> ->].
    apply reachable_json_price.
Qed.

End Invariants.

(** ** The ordering of the annotations *)

Lemma key_le_lex (a b : Z * Z) :
  key_le a b <-> fst a < fst b \/ (fst a = fst b /\ snd a <= snd b).
Proof.
  unfold key_le, key_lt. destruct a as [ay ax], b as [by' bx]; simpl.
  rewrite orb_false_iff, andb_false_iff, !Z.ltb_ge, Z.eqb_neq. lia.
Qed.

Lemma key_le_antisym (a b : Z * Z) : key_le a b -> key_le b a -> a = b.
Proof.
  rewrite !key_le_lex. destruct a, b; simpl. intros. f_equal; lia.
Qed.

Lemma key_le_trans (a b c : Z * Z) : key_le a b -> key_le b c -> key_le a c.
Proof. rewrite !key_le_lex. lia. Qed.

Lemma key_lt_le (a b : Z * Z) : key_lt a b = true -> key_le a b.
Proof.
  intros E. apply key_le_lex. unfold key_lt in E.
  rewrite orb_true_iff, andb_true_iff, !Z.ltb_lt, Z.eqb_eq in E. lia.
Qed.

Lemma py_min_spec (l : list Z) (m : Z) :
  py_min l = Ok m -> In m l /\ forall x, In x l -> m <= x.
Proof.
  destruct l as [|a l]; [discriminate|]. simpl. intros [= <-].
  revert a. induction l as [|b l IH]; intros a; simpl.
  - split; [auto | intros x [<-|[]]; lia].
  - destruct (IH (Z.min a b)) as [Hin Hle]. split.
    + destruct Hin as [E|Hin]; [|auto].
      rewrite <- E. destruct (Z.min_spec a b) as [[_ ->]|[_ ->]]; auto.
    + intros x [<-|[<-|Hx]].
      * specialize (Hle _ (or_introl eq_refl)). lia.
      * specialize (Hle _ (or_introl eq_refl)). lia.
      * apply Hle. right. exact Hx.
Qed.

Lemma get_min_coords_Ok (r : region) :
  points r <> [] -> exists k, get_min_coords r = Ok k.
Proof.
  unfold get_min_coords. destruct (points r) as [|p ps]; [congruence|].
  simpl. eauto.
Qed.

Lemma get_min_coords_spec (r : region) (min_y min_x : Z) :
  get_min_coords r = Ok (min_y, min_x) ->
  (In min_x (map fst (points r)) /\ forall p, In p (points r) -> min_x <= fst p) /\
  (In min_y (map snd (points r)) /\ forall p, In p (points r) -> min_y <= snd p).
Proof.
  unfold get_min_coords.
  destruct (py_min (map fst (points r))) as [mx|] eqn:Ex; [|discriminate].
  destruct (py_min (map snd (points r))) as [my|] eqn:Ey; [|discriminate].
  intros [= <- <-].
  apply py_min_spec in Ex as [Hx1 Hx2]. apply py_min_spec in Ey as [Hy1 Hy2].
  repeat split; auto.
  - intros p Hp. apply Hx2, in_map, Hp.
  - intros p Hp. apply Hy2, in_map, Hp.
Qed.

Lemma decorate_Ok (l : list region) (kl : list ((Z * Z) * region)) :
  decorate l = Ok kl <->
  Forall (fun r => exists k, get_min_coords r = Ok k) l /\
  kl = map (fun r => (key_of r, r)) l.
Proof.
  revert kl. induction l as [|r l IH]; intros kl; simpl.
  - split.
    + intros [= <-]. split; [constructor | reflexivity].
    + intros [_ ->]. reflexivity.
  - unfold key_of at 1. destruct (get_min_coords r) as [k|e] eqn:Ek.
    + destruct (decorate l) as [kl0|e] eqn:Ed.
      * destruct (proj1 (IH kl0) eq_refl) as [HF ->]. split.
        -- intros [= <-]. split; [constructor; eauto | reflexivity].
        -- intros [_ ->]. reflexivity.
      * split; [discriminate|]. intros [HF _].
        apply Forall_cons_1 in HF as [_ HF].
        assert (E : @Raise (list ((Z * Z) * region)) e = Ok (map (fun r => (key_of r, r)) l))
          by (apply IH; auto).
        discriminate.
    + split; [discriminate|]. intros [HF _].
      apply Forall_cons_1 in HF as [[k Hk] _]. congruence.
Qed.

Lemma insert_by_key_perm x l : Permutation (x :: l) (insert_by_key x l).
Proof.
  induction l as [|y l IH]; simpl; [reflexivity|].
  destruct (key_lt (fst y) (fst x)); [|reflexivity].
  rewrite perm_swap. constructor. exact IH.
Qed.

Lemma sort_by_key_perm l : Permutation l (sort_by_key l).
Proof.
  induction l as [|x l IH]; simpl; [constructor|].
  rewrite <- insert_by_key_perm. constructor. exact IH.
Qed.

Lemma insert_by_key_sorted x l :
  StronglySorted by_key l -> StronglySorted by_key (insert_by_key x l).
Proof.
  induction l as [|y l IH]; simpl; intros Hs.
  - repeat constructor.
  - apply StronglySorted_inv in Hs as [Hs Hy].
    destruct (key_lt (fst y) (fst x)) eqn:E.
    + constructor; [apply IH, Hs|].
      eapply Permutation_Forall; [apply insert_by_key_perm|].
      constructor; [apply key_lt_le, E | exact Hy].
    + constructor; [constructor; assumption|].
      constructor; [exact E|].
      eapply List.Forall_impl; [|exact Hy].
      intros z Hz. eapply key_le_trans; [exact E | exact Hz].
Qed.

Lemma sort_by_key_sorted l : StronglySorted by_key (sort_by_key l).
Proof.
  induction l as [|x l IH]; simpl; [constructor|].
  apply insert_by_key_sorted, IH.
Qed.

(** Two sorted arrangements of the same entries are the same list when no
    two entries share a key. *)
Lemma sorted_unique (l1 : list ((Z * Z) * region)) :
  forall l2,
    NoDup (map fst l1) -> Permutation l1 l2 ->
    StronglySorted by_key l1 -> StronglySorted by_key l2 -> l1 = l2.
Proof.
  induction l1 as [|x l1 IH]; intros l2 Hnd Hp Hs1 Hs2.
  - apply Permutation_nil in Hp. congruence.
  - destruct l2 as [|y l2]; [apply Permutation_sym, Permutation_nil in Hp; discriminate|].
    apply StronglySorted_inv in Hs1 as [Hs1 Hx].
    apply StronglySorted_inv in Hs2 as [Hs2 Hy].
    simpl in Hnd. apply NoDup_cons in Hnd as [Hnx Hnd].
    assert (E : x = y).
    { assert (Hin1 : In x (y :: l2))
        by (eapply Permutation_in; [exact Hp | left; reflexivity]).
      assert (Hin2 : In y (x :: l1))
        by (eapply Permutation_in; [apply Permutation_sym, Hp | left; reflexivity]).
      destruct Hin1 as [E|Hin1]; [congruence|].
      destruct Hin2 as [E|Hin2]; [congruence|].
      rewrite List.Forall_forall in Hx, Hy.
      assert (Ek : fst x = fst y)
        by (apply key_le_antisym; [apply Hx, Hin2 | apply Hy, Hin1]).
      exfalso. apply Hnx. rewrite Ek. apply list_elem_of_In, in_map, Hin2. }
    subst y. f_equal. apply IH; auto.
    eapply Permutation_cons_inv, Hp.
Qed.

Lemma sorted_keys (kl : list ((Z * Z) * region)) :
  StronglySorted by_key kl -> StronglySorted key_le (map fst kl).
Proof.
  induction 1 as [|x kl Hs IH Hx]; simpl; constructor; auto.
  rewrite List.Forall_forall in *. intros k Hk.
  apply in_map_iff in Hk as (y & <- & Hy). apply Hx, Hy.
Qed.

Lemma decorated_keys (kl : list ((Z * Z) * region)) :
  Forall (fun e => get_min_coords (snd e) = Ok (fst e)) kl ->
  Forall2 (fun r k => get_min_coords r = Ok k) (map snd kl) (map fst kl).
Proof. induction 1; simpl; constructor; auto. Qed.

Lemma decorate_entries (l : list region) :
  Forall (fun r => exists k, get_min_coords r = Ok k) l ->
  Forall (fun e => get_min_coords (snd e) = Ok (fst e))
         (map (fun r => (key_of r, r)) l).
Proof.
  induction 1 as [|r l [k Hk] HF IH]; simpl; constructor; auto.
  simpl. unfold key_of. rewrite Hk. reflexivity.
Qed.

Lemma sorting_annotation_data_Ok (l sorted : list region) :
  sorting_annotation_data l = Ok sorted <->
  Forall (fun r => exists k, get_min_coords r = Ok k) l /\
  sorted = map snd (sort_by_key (map (fun r => (key_of r, r)) l)).
Proof.
  unfold sorting_annotation_data. split.
  - destruct (decorate l) as [kl|e] eqn:E; [|discriminate].
    apply decorate_Ok in E as [HF ->]. intros [= <-]. auto.
  - intros [HF ->].
    rewrite (proj2 (decorate_Ok l _) (conj HF eq_refl)). reflexivity.
Qed.

Lemma has_key_Ok (k : Z * Z) (r : region) :
  has_key k r = true <-> get_min_coords r = Ok k.
Proof.
  unfold has_key. destruct (get_min_coords r) as [[y x]|e]; destruct k as [ky kx];
    simpl.
  - rewrite andb_true_iff, !Z.eqb_eq. split.
    + intros [-> ->]. reflexivity.
    + intros [= -> ->]. auto.
  - split; discriminate.
Qed.

(** Insertion does not move an entry past another one of the same key. *)
Lemma insert_by_key_stable (k : Z * Z) x kl :
  Forall (fun e => get_min_coords (snd e) = Ok (fst e)) (x :: kl) ->
  List.filter (has_key k) (map snd (insert_by_key x kl)) =
  List.filter (has_key k) (snd x :: map snd kl).
Proof.
  intros HF. apply Forall_cons_1 in HF as [Hx HF].
  induction HF as [|y kl Hy HF IH]; [reflexivity|].
  simpl insert_by_key. destruct (key_lt (fst y) (fst x)) eqn:E; [|reflexivity].
  cbn [map List.filter]. rewrite IH. cbn [List.filter].
  destruct (has_key k (snd x)) eqn:Ex; [|reflexivity].
  destruct (has_key k (snd y)) eqn:Ey; [|reflexivity].
  exfalso. apply has_key_Ok in Ex, Ey.
  assert (Exy : fst y = fst x) by congruence.
  rewrite Exy in E. unfold key_lt in E.
  rewrite orb_true_iff, andb_true_iff, !Z.ltb_lt in E. lia.
Qed.

Lemma sort_by_key_stable (k : Z * Z) kl :
  Forall (fun e => get_min_coords (snd e) = Ok (fst e)) kl ->
  List.filter (has_key k) (map snd (sort_by_key kl)) =
  List.filter (has_key k) (map snd kl).
Proof.
  induction 1 as [|x kl Hx HF IH]; [reflexivity|].
  change (sort_by_key (x :: kl)) with (insert_by_key x (sort_by_key kl)).
  rewrite insert_by_key_stable.
  - cbn [map List.filter]. rewrite IH. reflexivity.
  - constructor; [exact Hx|].
    eapply Permutation_Forall; [apply sort_by_key_perm | exact HF].
Qed.

(** C8 (amended): [sorted(annotation_data, key=get_min_coords)] succeeds
    when every polygon has a point; its result is a rearrangement of the
    input in ascending order of the keys (min-y, min-x), and ids 1..N are
    the positions in it. The sort is stable: the polygons that share a key
    come out in the order in which they were submitted. When no two
    polygons share a key the result, hence the id of every polygon, is the
    same for every submission order. For keys (40,1553) and (10,500) the
    polygon of key (10,500) gets id 1 in either order. The key of a polygon
    is the pair of the least y and the least x of its points, and keys are
    ordered lexicographically. *)
Theorem annotation_ids_by_min_coords (l : list region) :
  (Forall (fun r => points r <> []) l ->
   exists sorted, sorting_annotation_data l = Ok sorted) /\
  (forall sorted,
      sorting_annotation_data l = Ok sorted ->
      Permutation l sorted /\
      exists keys,
        Forall2 (fun r k => get_min_coords r = Ok k) sorted keys /\
        StronglySorted key_le keys /\
        (forall i : nat,
            numbered sorted !! i = (fun r => (Z.of_nat i + 1, r)) <$> sorted !! i) /\
        (forall k : Z * Z,
            List.filter (has_key k) sorted = List.filter (has_key k) l) /\
        (NoDup keys ->
         forall l', Permutation l l' -> sorting_annotation_data l' = Ok sorted)) /\
  (forall p q,
      get_min_coords p = Ok (40, 1553) -> get_min_coords q = Ok (10, 500) ->
      sorting_annotation_data [p; q] = Ok [q; p] /\
      sorting_annotation_data [q; p] = Ok [q; p] /\
      numbered [q; p] = [(1, q); (2, p)]) /\
  (forall r min_y min_x,
      get_min_coords r = Ok (min_y, min_x) ->
      (In min_x (map fst (points r)) /\
       forall p, In p (points r) -> min_x <= fst p) /\
      (In min_y (map snd (points r)) /\
       forall p, In p (points r) -> min_y <= snd p)) /\
  (forall a b : Z * Z,
      key_le a b <-> fst a < fst b \/ (fst a = fst b /\ snd a <= snd b)).
Proof.
  split; [|split; [|split; [|split; [exact get_min_coords_spec | exact key_le_lex]]]].
  - intros HF. eexists. apply sorting_annotation_data_Ok. split; [|reflexivity].
    eapply List.Forall_impl; [|exact HF]. apply get_min_coords_Ok.
  - intros sorted E. apply sorting_annotation_data_Ok in E as [HF ->].
    set (dec := fun r => (key_of r, r)).
    assert (Hperm := sort_by_key_perm (map dec l)).
    split.
    + rewrite <- Hperm, map_map, map_id. reflexivity.
    + exists (map fst (sort_by_key (map dec l))). split; [|split; [|split; [|split]]].
      * apply decorated_keys.
        eapply Permutation_Forall; [exact Hperm|]. apply decorate_entries, HF.
      * apply sorted_keys, sort_by_key_sorted.
      * intros i. unfold numbered. rewrite list_lookup_imap. reflexivity.
      * intros k. rewrite sort_by_key_stable by apply decorate_entries, HF.
        unfold dec. rewrite map_map, map_id. reflexivity.
      * intros Hnd l' Hl.
        apply sorting_annotation_data_Ok. split.
        -- eapply Permutation_Forall; [exact Hl | exact HF].
        -- f_equal. apply sorted_unique; auto using sort_by_key_sorted.
           etransitivity; [symmetry; exact Hperm|].
           etransitivity; [|apply sort_by_key_perm].
           apply Permutation_map, Hl.
  - intros p q Hp Hq. unfold sorting_annotation_data. simpl.
    rewrite Hp, Hq. simpl. auto.
Qed.

Lemma annotation_ids_by_min_coords_witness :
  (exists sorted, sorting_annotation_data [region_a; region_b] = Ok sorted) /\
  Permutation [region_a; region_b] [region_b; region_a] /\
  sorting_annotation_data [region_b; region_a] = Ok [region_b; region_a] /\
  sorting_annotation_data [region_a; region_b] = Ok [region_b; region_a] /\
  numbered [region_b; region_a] = [(1, region_b); (2, region_a)] /\
  sorting_annotation_data [region_a; region_d; region_c] =
    Ok [region_d; region_c; region_a] /\
  List.filter (has_key (0, 0)) [region_d; region_c; region_a] =
    [region_d; region_c].
Proof.
  destruct (annotation_ids_by_min_coords [region_a; region_b])
    as (H1 & H2 & H3 & _).
  destruct (annotation_ids_by_min_coords [region_a; region_d; region_c])
    as (_ & Hties & _).
  destruct (Hties [region_d; region_c; region_a] eq_refl)
    as (_ & keys' & _ & _ & _ & Hstable & _).
  split.
  - apply H1. repeat constructor; discriminate.
  - destruct (H2 [region_b; region_a] eq_refl) as (Hp & keys & HF & _ & _ & _ & Hnd).
    split; [exact Hp|]. split.
    + apply Hnd; [|apply perm_swap].
      apply Forall2_cons_inv_l in HF as (k1 & keys1 & E1 & HF & ->).
      apply Forall2_cons_inv_l in HF as (k2 & keys2 & E2 & HF & ->).
      apply Forall2_nil_inv_l in HF as ->.
      injection E1 as <-. injection E2 as <-.
      apply NoDup_cons. split; [|apply NoDup_singleton].
      intros Hin. apply list_elem_of_singleton in Hin. discriminate.
    + destruct (H3 region_a region_b eq_refl eq_refl) as (Ha & _ & Hn).
      split; [exact Ha|]. split; [exact Hn|]. split; [reflexivity|].
      rewrite (Hstable (0, 0)). reflexivity.
Defined.

(** C8, as stated, fails: two different polygons with the same key keep
    their submission order, so each of them gets id 1 in one order and
    id 2 in the other. *)
Lemma annotation_ids_depend_on_order :
  Permutation [region_c; region_d] [region_d; region_c] /\
  get_min_coords region_c = get_min_coords region_d /\
  (exists s1 s2,
      sorting_annotation_data [region_c; region_d] = Ok s1 /\
      sorting_annotation_data [region_d; region_c] = Ok s2 /\
      numbered s1 = [(1, region_c); (2, region_d)] /\
      numbered s2 = [(1, region_d); (2, region_c)]) /\
  ~ (forall l l' s s',
        Permutation l l' ->
        sorting_annotation_data l = Ok s -> sorting_annotation_data l' = Ok s' ->
        numbered s = numbered s').
Proof.
  split; [apply perm_swap|]. split; [reflexivity|]. split.
  - exists [region_c; region_d], [region_d; region_c]. repeat split.
  - intros Hall.
    specialize (Hall [region_c; region_d] [region_d; region_c]
                     [region_c; region_d] [region_d; region_c]
                     (perm_swap _ _ _) eq_refl eq_refl).
    discriminate.
Qed.

(** ** The invoice helpers *)

Lemma round_invoice_lt (amount : Q) : (amount < round_invoice amount + 100)%Q.
Proof.
  unfold round_invoice, py_floordiv.
  assert (H := Qlt_floor (amount / 100)).
  apply (Qmult_lt_compat_r _ _ 100) in H; [|reflexivity].
  rewrite inject_Z_plus in H.
  assert (E : (amount / 100 * 100 == amount)%Q) by field.
  rewrite E in H.
  eapply Qlt_le_trans; [exact H|].
  apply Qle_lteq. right. change (inject_Z 1) with 1%Q. ring.
Qed.

(** C5: [round_invoice] truncates down to a multiple of 100 with floor
    division: for every amount [x >= 0], [round_invoice(x) <= x] and
    [round_invoice(x) % 100 == 0] (and [x] is less than 100 above it); on an
    [int] it is [(n // 100) * 100]; [round_invoice(2335) == 2300],
    [round_invoice(99) == 0] and [round_invoice(3000) == 3000]. *)
Theorem round_invoice_truncates (x : Q) :
  (0 <= x)%Q ->
  (round_invoice x <= x)%Q /\
  (py_mod (round_invoice x) 100 == 0)%Q /\
  (x < round_invoice x + 100)%Q /\
  (forall n : Z, round_invoice (inject_Z n) == inject_Z (n / 100 * 100))%Q /\
  (round_invoice 2335 == 2300)%Q /\
  (round_invoice 99 == 0)%Q /\
  (round_invoice 3000 == 3000)%Q.
Proof.
  intros _. split; [apply round_invoice_le|].
  split; [rewrite round_invoice_multiple; apply py_mod_multiple|].
  split; [apply round_invoice_lt|].
  split; [exact round_invoice_int|].
  repeat split.
Qed.

Lemma round_invoice_truncates_witness :
  (0 <= 2335)%Q /\ (round_invoice 2335 <= 2335)%Q /\
  (py_mod (round_invoice 2335) 100 == 0)%Q.
Proof.
  split; [discriminate|].
  destruct (round_invoice_truncates 2335) as (H1 & H2 & _); [discriminate|].
  split; [exact H1 | exact H2].
Defined.


(** C6: [calc_invoice] applies the division by 60 and then the
    multiplication by the time, with the operators of its arguments, and
    nothing else: no rounding step follows. On [float] this is
    [(price_per_hour / 60) * time] in binary64;
    [calc_invoice(time=30, price_per_hour=6000) == 3000.0] and
    [calc_invoice(time=0, price_per_hour=8000) == 0.0]. The result keeps
    the precision of the operators: [calc_invoice(1, 100)] is
    1.6666666666666667, and [calc_invoice(60, 7900)] is
    7899.999999999999 where multiplying first would give 7900.0. *)
Theorem calc_invoice_formula :
  (forall (num : Type) (A : Arithmetic num) (time price : num),
      calc_invoice time price = mul (truediv price (of_int 60)) time) /\
  (forall time price : float,
      calc_invoice time price = (price / 60 * time)%float) /\
  calc_invoice 30%float 6000%float = 3000%float /\
  calc_invoice 0%float 8000%float = 0%float /\
  calc_invoice 1%float 100%float = 0x1.aaaaaaaaaaaabp+0%float /\
  calc_invoice 60%float 7900%float = 0x1.edbffffffffffp+12%float /\
  (7900 * 60 / 60)%float = 7900%float.
Proof.
  split; [reflexivity|]. split; [reflexivity|].
  repeat (split; [vm_compute; reflexivity|]). vm_compute. reflexivity.
Qed.

(** ** Construction of a session *)

(** C2 (amended): the constructor raises, before any state exists, when the
    path of the configuration is missing ([ValueError]) or loading the file
    raises; in every other case it returns an object: its configuration
    is the loaded list whatever its length and the number of points of its
    polygons, its price is the argument even when missing, its counters are
    zero and it holds one available, zeroed record for each id 1..N. *)
Theorem init_accepts_any_configuration
    (open_json : string -> result (list region)) (price : option Q)
    (json_file : option string) :
  (json_file = None -> __init__ open_json price json_file = Raise ValueError) /\
  (forall path e,
      json_file = Some path -> open_json path = Raise e ->
      __init__ open_json price json_file = Raise e) /\
  (forall path regions,
      json_file = Some path -> open_json path = Ok regions ->
      exists pm,
        __init__ open_json price json_file = Ok pm /\
        json pm = regions /\ price_per_hour pm = price /\
        pr_info pm = mkInfo 0 0 0 0 0 /\
        forall k : Z,
          spots pm !! k =
            if decide (1 <= k <= Z.of_nat (length regions))
            then Some (mkSpot 0 0 true) else None).
Proof.
  split; [|split].
  - intros ->. reflexivity.
  - intros path e -> E. unfold __init__. rewrite E. reflexivity.
  - intros path regions -> E. unfold __init__. rewrite E.
    eexists. split; [reflexivity|]. simpl. repeat split.
    intros k. apply init_spots_lookup.
Qed.

Lemma init_accepts_any_configuration_witness :
  __init__ lot_files (Some 6000%Q) None = Raise ValueError /\
  __init__ lot_files (Some 6000%Q) (Some "nowhere.json"%string) = Raise OSError /\
  exists pm,
    __init__ lot_files None (Some "segment.json"%string) = Ok pm /\
    json pm = [mkRegion [(0, 0); (10, 10)]] /\ price_per_hour pm = None /\
    spots pm !! 1 = Some (mkSpot 0 0 true).
Proof.
  split; [|split].
  - apply (init_accepts_any_configuration lot_files (Some 6000%Q) None).
    reflexivity.
  - apply (init_accepts_any_configuration lot_files (Some 6000%Q)
             (Some "nowhere.json"%string)) with (path := "nowhere.json"%string);
      reflexivity.
  - destruct (init_accepts_any_configuration lot_files None
                (Some "segment.json"%string)) as (_ & _ & H).
    destruct (H "segment.json"%string [mkRegion [(0, 0); (10, 10)]]
                eq_refl eq_refl) as (pm & E & Hj & Hp & _ & Hs).
    exists pm. split; [exact E|]. split; [exact Hj|]. split; [exact Hp|].
    exact (Hs 1).
Defined.

(** C2, as stated, fails: an empty configuration, a two-point polygon and a
    missing price each let the constructor return an object. *)
Lemma init_without_validation :
  (exists pm,
      __init__ lot_files (Some 6000%Q) (Some "empty.json"%string) = Ok pm /\
      json pm = []) /\
  (exists pm r,
      __init__ lot_files (Some 6000%Q) (Some "segment.json"%string) = Ok pm /\
      json pm = [r] /\ length (points r) = 2%nat) /\
  (exists pm,
      __init__ lot_files None (Some "lot.json"%string) = Ok pm /\
      price_per_hour pm = None).
Proof.
  split; [|split].
  - eexists. split; reflexivity.
  - do 2 eexists. split; [reflexivity|]. split; reflexivity.
  - eexists. split; reflexivity.
Qed.

(** ** The verdict of a frame on a space *)

Section Verdict.
Context `{PolygonTest}.




End Verdict.



(** ** The counters of a frame *)

Section Counters.
Context `{PolygonTest}.
Variables (boxes : list box) (clss : list Z).

(** When the loop ends normally, [fs] went up and [es] went down by the
    number of occupied regions. *)
Lemma regions_loop_counts regions :
  forall idx fs es drawn pm fs' es' drawn' pm',
    regions_loop boxes clss idx regions fs es drawn pm =
      (Done (fs', es', drawn'), pm') ->
    fs' = fs + occupied_regions regions boxes clss /\
    es' = es - occupied_regions regions boxes clss.
Proof.
  unfold occupied_regions.
  induction regions as [|r rest IH];
    intros idx fs es drawn pm fs' es' drawn' pm' E.
  - inversion E; subst. simpl. lia.
  - rewrite regions_loop_cons in E. cbv zeta in E. simpl.
    destruct (draw_polygon_with_number _ _ _ _ _) as [l|e]; [|discriminate].
    destruct (update_spot idx (rg_occupied r boxes clss) pm) as [[[]|e] pm1];
      [|discriminate].
    apply IH in E. destruct (rg_occupied r boxes clss); simpl length; lia.
Qed.

(** Wherever the loop stops, it has left [Occupancy] and [Available]
    alone. *)
Lemma regions_loop_stale regions idx fs es drawn pm :
  let pm' := snd (regions_loop boxes clss idx regions fs es drawn pm) in
  Occupancy (pr_info pm') = Occupancy (pr_info pm) /\
  Available (pr_info pm') = Available (pr_info pm).
Proof.
  apply (regions_loop_preserves boxes clss
           (fun x => Occupancy (pr_info x) = Occupancy (pr_info pm) /\
                     Available (pr_info x) = Available (pr_info pm))); [|auto].
  intros i v pm0 [Ho Ha].
  destruct (update_spot_frame i v pm0) as (_ & _ & -> & -> & _). auto.
Qed.

Lemma process_data_completes pm :
  spots_cover pm -> is_Some (price_per_hour pm) ->
  Forall (fun r => points r <> []) (json pm) ->
  exists drawn, fst (process_data boxes clss pm) = Done drawn.
Proof.
  intros Hc Hp HF.
  destruct (process_data_state boxes clss pm HF) as [_ Hfst].
  rewrite (states_frame_Ok boxes clss pm Hc Hp) in Hfst.
  destruct Hfst as (drawn & Hd & _). eauto.
Qed.

(** C3 (amended): a frame-cycle of a running session completes whenever
    the session has a price and every polygon has a point. Whenever it
    completes, [Occupancy] is the number of regions occupied in this frame,
    whatever the counters held before, [Available] is the number of regions
    minus [Occupancy], and the two sum to the number of configured regions.
    Whenever it raises, [Occupancy] and [Available] are left as they were
    before the frame. *)
Theorem counts_are_a_frame_snapshot pm :
  reachable pm ->
  let pm' := snd (process_data boxes clss pm) in
  (is_Some (price_per_hour pm) ->
   Forall (fun r => points r <> []) (json pm) ->
   exists drawn, fst (process_data boxes clss pm) = Done drawn) /\
  (forall drawn,
      fst (process_data boxes clss pm) = Done drawn ->
      Occupancy (pr_info pm') = occupied_regions (json pm) boxes clss /\
      Available (pr_info pm') =
        Z.of_nat (length (json pm)) - occupied_regions (json pm) boxes clss /\
      Occupancy (pr_info pm') + Available (pr_info pm') =
        Z.of_nat (length (json pm'))) /\
  (forall e,
      fst (process_data boxes clss pm) = Fail e ->
      Occupancy (pr_info pm') = Occupancy (pr_info pm) /\
      Available (pr_info pm') = Available (pr_info pm)).
Proof.
  intros Hr pm'. split; [|split].
  - apply process_data_completes, reachable_spots_cover, Hr.
  - intros drawn Hd. subst pm'.
    destruct (reachable_json_price boxes clss pm) as [Hj _].
    unfold process_data in *.
    destruct (regions_loop boxes clss 0 (json pm) 0
                (Z.of_nat (length (json pm))) [] pm)
      as [[[[fs es] drawn0]|e] pm1] eqn:E; [|discriminate].
    apply regions_loop_counts in E as [-> ->]. simpl in *.
    rewrite Hj. repeat split; lia.
  - intros e He. subst pm'. unfold process_data in *.
    assert (Hst := regions_loop_stale (json pm) 0 0
                     (Z.of_nat (length (json pm))) [] pm).
    destruct (regions_loop boxes clss 0 (json pm) 0
                (Z.of_nat (length (json pm))) [] pm)
      as [[[[fs es] drawn0]|e0] pm1]; [discriminate|].
    exact Hst.
Qed.

End Counters.

Section Claims.
Context `{PolygonTest}.

(** C4: in a session as constructed and after any number of frame-cycles,
    whether they completed or raised, every configured space has a record
    and, whenever that record is available, its [Time] is 0 and its
    [Invoice] is 0. *)
Theorem available_space_is_reset pm (k : Z) :
  reachable pm ->
  1 <= k <= Z.of_nat (length (json pm)) ->
  exists s,
    spots pm !! k = Some s /\
    (IsAvailable s = true -> Time s = 0 /\ (Invoice s == 0)%Q).
Proof.
  intros Hr Hk.
  destruct (proj2 (reachable_spots_cover pm Hr k) Hk) as [s Hs].
  exists s. split; [exact Hs|]. apply (reachable_available_reset pm Hr k s Hs).
Qed.

(** C10: [total_revenue] is a multiple of 100 in a session as constructed
    and after any number of frame-cycles, whether they completed or
    raised: [total_revenue % 100 == 0]. *)
Theorem total_revenue_multiple_of_100 pm :
  reachable pm ->
  (py_mod (total_revenue (pr_info pm)) 100 == 0)%Q /\
  exists n : Z, (total_revenue (pr_info pm) == inject_Z (100 * n))%Q.
Proof.
  intros Hr. destruct (reachable_revenue_in_hundreds pm Hr) as [n Hn].
  split; [|exists n; exact Hn].
  rewrite Hn. apply py_mod_multiple.
Qed.

End Claims.

(** ** Idle spaces *)

Section Idle.
Context `{PolygonTest}.
Variables (boxes : list box) (clss : list Z).

(** The record of an available space that the frame does not occupy
    comes out of the loop as it went in, wherever the loop stops. *)
Lemma regions_loop_keeps_idle regions :
  forall idx fs es drawn pm k s,
    spots pm !! k = Some s -> IsAvailable s = true ->
    (forall r, idx + 1 <= k -> regions !! Z.to_nat (k - 1 - idx) = Some r ->
               rg_occupied r boxes clss = false) ->
    spots (snd (regions_loop boxes clss idx regions fs es drawn pm)) !! k = Some s.
Proof.
  induction regions as [|r rest IH]; intros idx fs es drawn pm k s Hs Ha Hv.
  - exact Hs.
  - rewrite regions_loop_cons. cbv zeta.
    destruct (draw_polygon_with_number _ _ _ _ _) as [l|e]; [|exact Hs].
    assert (Hs1 : spots (snd (update_spot idx (rg_occupied r boxes clss) pm)) !! k
                  = Some s).
    { destruct (decide (k = idx + 1)) as [->|Hk].
      - rewrite (Hv r); [|lia|].
        + rewrite (update_spot_idle idx pm s Hs Ha). exact Hs.
        + replace (idx + 1 - 1 - idx) with 0 by lia. reflexivity.
      - destruct (update_spot_frame idx (rg_occupied r boxes clss) pm)
          as (_ & _ & _ & _ & Hne & _).
        rewrite (Hne k Hk). exact Hs. }
    destruct (update_spot idx (rg_occupied r boxes clss) pm) as [[[]|e] pm1];
      simpl in *; [|exact Hs1].
    apply IH; auto.
    intros r' Hk Hr'. apply Hv; [lia|].
    replace (Z.to_nat (k - 1 - idx)) with (S (Z.to_nat (k - 1 - (idx + 1))))
      by lia.
    exact Hr'.
Qed.

Lemma process_data_keeps_idle pm k s r :
  spots pm !! k = Some s -> IsAvailable s = true ->
  json pm !! Z.to_nat (k - 1) = Some r -> rg_occupied r boxes clss = false ->
  spots (snd (process_data boxes clss pm)) !! k = Some s.
Proof.
  intros Hs Ha Hjson Hv.
  assert (Hloop := regions_loop_keeps_idle (json pm) 0 0
                     (Z.of_nat (length (json pm))) [] pm k s Hs Ha).
  unfold process_data.
  destruct (regions_loop _ _ _ _ _ _ _ pm) as [[[[fs es] drawn]|e] pm'];
    simpl in *;
    apply Hloop; intros r' Hk Hr'; replace (k - 1 - 0) with (k - 1) in Hr' by lia;
    congruence.
Qed.

(** A frame that occupies nothing, on a lot where nothing is parked: the
    loop returns the object it was given, and what it returns does not
    depend on [pr_info]. *)
Lemma regions_loop_all_idle regions :
  Forall (fun r => rg_occupied r boxes clss = false) regions ->
  forall idx fs es drawn pm i,
    (forall k s, spots pm !! k = Some s -> IsAvailable s = true) ->
    regions_loop boxes clss idx regions fs es drawn (set_pr_info i pm) =
      (fst (regions_loop boxes clss idx regions fs es drawn pm), set_pr_info i pm).
Proof.
  induction 1 as [|r rest Hr _ IH]; intros idx fs es drawn pm i Ha.
  - reflexivity.
  - rewrite !regions_loop_cons, Hr. cbv zeta.
    destruct (draw_polygon_with_number _ _ _ _ _) as [l|e]; [|reflexivity].
    destruct (spots pm !! (idx + 1)) as [s|] eqn:Hs.
    + rewrite (update_spot_idle idx pm s Hs (Ha _ _ Hs)).
      rewrite (update_spot_idle idx (set_pr_info i pm) s Hs (Ha _ _ Hs)).
      apply IH, Ha.
    + rewrite (update_spot_missing idx false pm Hs).
      rewrite (update_spot_missing idx false (set_pr_info i pm) Hs).
      reflexivity.
Qed.

Lemma regions_loop_idle_completes regions :
  Forall (fun r => rg_occupied r boxes clss = false /\ points r <> []) regions ->
  forall idx fs es drawn pm,
    (forall j, 0 <= j < Z.of_nat (length regions) ->
               exists s, spots pm !! (idx + j + 1) = Some s /\ IsAvailable s = true) ->
    exists drawn',
      regions_loop boxes clss idx regions fs es drawn pm =
        (Done (fs, es, drawn'), pm).
Proof.
  induction 1 as [|r rest [Hr Hne] _ IH]; intros idx fs es drawn pm Hs.
  - simpl. eauto.
  - rewrite regions_loop_cons, Hr. cbv zeta.
    destruct (points r) as [|p ps] eqn:Hp; [congruence|].
    rewrite (draw_first_vertex r p ps _ _ _ _ Hp).
    destruct (Hs 0) as (s & Hs0 & Ha0); [simpl length; lia|].
    replace (idx + 0 + 1) with (idx + 1) in Hs0 by lia.
    rewrite (update_spot_idle idx pm s Hs0 Ha0).
    apply IH.
    intros j Hj. replace (idx + 1 + j + 1) with (idx + (j + 1) + 1) by lia.
    apply Hs. simpl length. lia.
Qed.

(** A frame in which every space is idle. *)
Lemma process_data_all_idle pm :
  (forall k s, spots pm !! k = Some s -> IsAvailable s = true) ->
  Forall (fun r => rg_occupied r boxes clss = false) (json pm) ->
  let pm' := snd (process_data boxes clss pm) in
  spots pm' = spots pm /\
  total_cars (pr_info pm') = total_cars (pr_info pm) /\
  total_time (pr_info pm') = total_time (pr_info pm) /\
  total_revenue (pr_info pm') = total_revenue (pr_info pm) /\
  process_data boxes clss pm' = (fst (process_data boxes clss pm), pm').
Proof.
  intros Ha Hv pm'.
  assert (Hloop := fun fs es i =>
            regions_loop_all_idle (json pm) Hv 0 fs es [] pm i Ha).
  assert (Hself := Hloop 0 (Z.of_nat (length (json pm))) (pr_info pm)).
  replace (set_pr_info (pr_info pm) pm) with pm in Hself by (destruct pm; reflexivity).
  assert (E0 : process_data boxes clss pm =
               match fst (regions_loop boxes clss 0 (json pm) 0
                            (Z.of_nat (length (json pm))) [] pm) with
               | Done (fs, es, drawn) =>
                   (Done drawn, set_pr_info (set_counts fs es (pr_info pm)) pm)
               | Fail e => (Fail e, pm)
               end).
  { unfold process_data. rewrite Hself.
    destruct (fst (regions_loop boxes clss 0 (json pm) 0
                     (Z.of_nat (length (json pm))) [] pm))
      as [[[fs es] drawn]|e]; reflexivity. }
  subst pm'. rewrite E0.
  destruct (fst (regions_loop boxes clss 0 (json pm) 0
                   (Z.of_nat (length (json pm))) [] pm))
    as [[[fs es] drawn]|e] eqn:E; cbn [snd fst].
  - repeat split. unfold process_data. cbn [json set_pr_info].
    rewrite Hloop, E. reflexivity.
  - repeat split. exact E0.
Qed.

End Idle.

Lemma run_keeps_idle `{PolygonTest} (frames : list (list box * list Z)) :
  forall pm k s r,
    spots pm !! k = Some s -> IsAvailable s = true ->
    json pm !! Z.to_nat (k - 1) = Some r ->
    Forall (fun f => rg_occupied r (fst f) (snd f) = false) frames ->
    spots (run frames pm) !! k = Some s.
Proof.
  induction frames as [|[b c] rest IH]; intros pm k s r Hs Ha Hj Hv; simpl.
  - exact Hs.
  - apply Forall_cons_1 in Hv as [Hv0 Hv].
    apply (IH _ k s r); auto.
    + apply (process_data_keeps_idle b c pm k s r); auto.
    + rewrite (proj1 (reachable_json_price b c pm)). exact Hj.
Qed.

(** C9 (amended): processing a space that is available and not occupied in
    the frame returns the object unchanged: the record of the space and
    all of [pr_info], with its cumulative counters. After a frame-cycle of
    a running session, and after any sequence of frame-cycles that do not
    occupy the space, complete or not, its record is still the same,
    whatever happened to the other spaces; the cumulative counters follow
    the other spaces. When every space is available and the frame occupies
    none, the frame-cycle leaves every record and the three cumulative
    counters as they were, running it again returns the same and changes
    nothing at all, and it completes when every polygon has a point. *)
Theorem idle_space_is_untouched `{PolygonTest} pm (boxes : list box) (clss : list Z) :
  reachable pm ->
  (forall pm0 idx s,
      spots pm0 !! (idx + 1) = Some s -> IsAvailable s = true ->
      update_spot idx false pm0 = (Ok tt, pm0)) /\
  (forall (frames : list (list box * list Z)) k s r,
      spots pm !! k = Some s -> IsAvailable s = true ->
      json pm !! Z.to_nat (k - 1) = Some r ->
      Forall (fun f => rg_occupied r (fst f) (snd f) = false) frames ->
      spots (run frames pm) !! k = Some s) /\
  ((forall k s, spots pm !! k = Some s -> IsAvailable s = true) ->
   Forall (fun r => rg_occupied r boxes clss = false) (json pm) ->
   let pm' := snd (process_data boxes clss pm) in
   spots pm' = spots pm /\
   total_cars (pr_info pm') = total_cars (pr_info pm) /\
   total_time (pr_info pm') = total_time (pr_info pm) /\
   total_revenue (pr_info pm') = total_revenue (pr_info pm) /\
   process_data boxes clss pm' = (fst (process_data boxes clss pm), pm') /\
   (Forall (fun r => points r <> []) (json pm) ->
    exists drawn,
      process_data boxes clss pm =
        (Done drawn,
         set_pr_info (set_counts 0 (Z.of_nat (length (json pm))) (pr_info pm)) pm))).
Proof.
  intros Hr. split; [|split].
  - intros pm0 idx s. apply update_spot_idle.
  - intros frames. apply run_keeps_idle.
  - intros Ha Hv pm'.
    destruct (process_data_all_idle boxes clss pm Ha Hv) as (H1 & H2 & H3 & H4 & H5).
    repeat (split; [assumption|]).
    intros Hne. assert (Hcover := reachable_spots_cover pm Hr).
    destruct (regions_loop_idle_completes boxes clss (json pm)) with
      (idx := 0) (fs := 0) (es := Z.of_nat (length (json pm)))
      (drawn := @nil label) (pm := pm) as [drawn E].
    + apply List.Forall_forall. intros r Hin. split.
      * rewrite List.Forall_forall in Hv. apply Hv, Hin.
      * rewrite List.Forall_forall in Hne. apply Hne, Hin.
    + intros j Hj. destruct (proj2 (Hcover (0 + j + 1))) as [s Hs]; [lia|].
      exists s. split; [exact Hs | exact (Ha _ _ Hs)].
    + exists drawn. unfold process_data. rewrite E. reflexivity.
Qed.

(** ** The running examples *)

Lemma lot_session_reachable : @reachable rect_pointPolygonTest lot_session.
Proof.
  apply (reachable_init lot_files (Some 6000%Q) (Some "lot.json"%string)).
  reflexivity.
Defined.

Lemma two_space_session_reachable :
  @reachable rect_pointPolygonTest two_space_session.
Proof.
  apply (reachable_init (fun _ => Ok two_spaces) (Some 6000%Q)
           (Some "two.json"%string)).
  reflexivity.
Defined.

Lemma no_price_session_reachable :
  @reachable rect_pointPolygonTest no_price_session.
Proof.
  apply (reachable_init lot_files None (Some "lot.json"%string)).
  reflexivity.
Defined.

(** C3, as stated, fails: a session without a price is constructed, and
    its frame-cycle on a frame with a car raises [TypeError] before the
    counters are stored: they are 0 and 0 on a lot of one space, of which
    one is occupied in the frame. After a frame that completed, a frame
    that raises leaves the counters of the frame before: 0 occupied, with
    a car in the space. A polygon without points does the same through the
    [IndexError] of the drawing, in a session that has a price. *)
Lemma counts_stale_after_a_raise :
  let pm1 := snd (@process_data rect_pointPolygonTest [car] [0] no_price_session) in
  let pm2 := @run rect_pointPolygonTest [([], []); ([car], [0])] no_price_session in
  let pm3 := snd (@process_data rect_pointPolygonTest [car] [0] no_point_session) in
  __init__ lot_files None (Some "lot.json"%string) = Ok no_price_session /\
  fst (@process_data rect_pointPolygonTest [car] [0] no_price_session) =
    Fail (Exn TypeError) /\
  @occupied_regions rect_pointPolygonTest (json no_price_session) [car] [0] = 1 /\
  Z.of_nat (length (json pm1)) = 1 /\
  Occupancy (pr_info pm1) + Available (pr_info pm1) = 0 /\
  Occupancy (pr_info pm2) = 0 /\ Available (pr_info pm2) = 1 /\
  __init__ (fun _ => Ok [mkRegion []]) (Some 6000%Q) (Some "lot.json"%string) =
    Ok no_point_session /\
  fst (@process_data rect_pointPolygonTest [car] [0] no_point_session) =
    Fail IndexError /\
  Z.of_nat (length (json pm3)) = 1 /\
  Occupancy (pr_info pm3) + Available (pr_info pm3) = 0 /\
  ~ (forall pm boxes clss,
        @reachable rect_pointPolygonTest pm ->
        let pm' := snd (@process_data rect_pointPolygonTest boxes clss pm) in
        Occupancy (pr_info pm') + Available (pr_info pm') =
          Z.of_nat (length (json pm')) /\
        Occupancy (pr_info pm') =
          @occupied_regions rect_pointPolygonTest (json pm) boxes clss).
Proof.
  cbv zeta. repeat (split; [vm_compute; reflexivity|]).
  intros Hall.
  destruct (Hall no_price_session [car] [0] no_price_session_reachable) as [Hsum _].
  vm_compute in Hsum. discriminate Hsum.
Qed.

Lemma counts_are_a_frame_snapshot_witness :
  let pm := @run rect_pointPolygonTest
              [([car], [0]); ([car; car_e], [0; 0])] two_space_session in
  @reachable rect_pointPolygonTest pm /\
  Occupancy (pr_info pm) = 2 /\
  (exists drawn, fst (@process_data rect_pointPolygonTest [car_e] [0] pm) = Done drawn) /\
  Occupancy (pr_info (snd (@process_data rect_pointPolygonTest [car_e] [0] pm))) = 1 /\
  Available (pr_info (snd (@process_data rect_pointPolygonTest [car_e] [0] pm))) = 1 /\
  Occupancy (pr_info (snd (@process_data rect_pointPolygonTest [car] [0]
                             no_price_session))) = 0.
Proof.
  cbv zeta.
  assert (Hr : @reachable rect_pointPolygonTest
                 (@run rect_pointPolygonTest
                    [([car], [0]); ([car; car_e], [0; 0])] two_space_session)).
  { apply run_reachable, two_space_session_reachable. }
  destruct (@counts_are_a_frame_snapshot rect_pointPolygonTest [car_e] [0] _ Hr)
    as (Hdone & Hcount & _).
  destruct (@counts_are_a_frame_snapshot rect_pointPolygonTest [car] [0] _
              no_price_session_reachable) as (_ & _ & Hstale).
  assert (Hd : exists drawn,
             fst (@process_data rect_pointPolygonTest [car_e] [0]
                    (@run rect_pointPolygonTest
                       [([car], [0]); ([car; car_e], [0; 0])] two_space_session))
             = Done drawn).
  { apply Hdone.
    - vm_compute. eauto.
    - vm_compute. repeat constructor; discriminate. }
  split; [exact Hr|]. split; [vm_compute; reflexivity|]. split; [exact Hd|].
  destruct Hd as [drawn Hd]. destruct (Hcount drawn Hd) as (Ho & Ha & _).
  split; [rewrite Ho; vm_compute; reflexivity|].
  split; [rewrite Ha; vm_compute; reflexivity|].
  destruct (Hstale (Exn TypeError)) as [Ho' _]; [vm_compute; reflexivity|].
  rewrite Ho'. reflexivity.
Defined.

Lemma available_space_is_reset_witness :
  let pm := @run rect_pointPolygonTest
              [([car], [0]); ([car], [0]); ([], [])] lot_session in
  let raised := @run rect_pointPolygonTest
                  [([car], [0]); ([], [])] no_price_session in
  @reachable rect_pointPolygonTest pm /\
  1 <= 1 <= Z.of_nat (length (json pm)) /\
  total_time (pr_info pm) = 2 /\
  (exists s,
      spots pm !! 1 = Some s /\ IsAvailable s = true /\
      Time s = 0 /\ (Invoice s == 0)%Q) /\
  fst (@process_data rect_pointPolygonTest [car] [0] no_price_session) =
    Fail (Exn TypeError) /\
  total_time (pr_info raised) = 1 /\
  exists s,
    spots raised !! 1 = Some s /\ IsAvailable s = true /\
    Time s = 0 /\ (Invoice s == 0)%Q.
Proof.
  cbv zeta.
  assert (Hr' : @reachable rect_pointPolygonTest
                  (@run rect_pointPolygonTest
                     [([car], [0]); ([], [])] no_price_session)).
  { apply run_reachable, no_price_session_reachable. }
  assert (Hk' : 1 <= 1 <= Z.of_nat (length (json (@run rect_pointPolygonTest
                      [([car], [0]); ([], [])] no_price_session)))).
  { rewrite (proj1 (run_json_price _ _)). simpl. lia. }
  destruct (@available_space_is_reset rect_pointPolygonTest _ 1 Hr' Hk')
    as (s' & Hs' & Hreset').
  assert (Ha' : IsAvailable s' = true).
  { assert (E : spots (@run rect_pointPolygonTest
                         [([car], [0]); ([], [])] no_price_session) !! 1
                = Some new_spot) by (vm_compute; reflexivity).
    rewrite E in Hs'. injection Hs' as <-. reflexivity. }
  assert (Hr : @reachable rect_pointPolygonTest
                 (@run rect_pointPolygonTest
                    [([car], [0]); ([car], [0]); ([], [])] lot_session)).
  { apply run_reachable, lot_session_reachable. }
  assert (Hk : 1 <= 1 <= Z.of_nat (length (json (@run rect_pointPolygonTest
                      [([car], [0]); ([car], [0]); ([], [])] lot_session)))).
  { rewrite (proj1 (run_json_price _ _)). simpl. lia. }
  split; [exact Hr|]. split; [exact Hk|]. split; [vm_compute; reflexivity|].
  destruct (@available_space_is_reset rect_pointPolygonTest _ 1 Hr Hk)
    as (s & Hs & Hreset).
  assert (Ha : IsAvailable s = true).
  { assert (E : spots (@run rect_pointPolygonTest
                         [([car], [0]); ([car], [0]); ([], [])] lot_session) !! 1
                = Some new_spot) by (vm_compute; reflexivity).
    rewrite E in Hs. injection Hs as <-. reflexivity. }
  split; [exists s; split; [exact Hs|]; split; [exact Ha|]; exact (Hreset Ha)|].
  split; [vm_compute; reflexivity|]. split; [vm_compute; reflexivity|].
  exists s'. split; [exact Hs'|]. split; [exact Ha'|]. exact (Hreset' Ha').
Defined.

Lemma total_revenue_multiple_of_100_witness :
  let pm := @run rect_pointPolygonTest
              [([car], [0]); ([car], [0]); ([car], [0]); ([car], [0]); ([], []);
               ([car], [0])] lot_session in
  @reachable rect_pointPolygonTest pm /\
  (total_revenue (pr_info pm) == 400)%Q /\
  (py_mod (total_revenue (pr_info pm)) 100 == 0)%Q.
Proof.
  cbv zeta.
  assert (Hr : @reachable rect_pointPolygonTest
                 (@run rect_pointPolygonTest
                    [([car], [0]); ([car], [0]); ([car], [0]); ([car], [0]);
                     ([], []); ([car], [0])] lot_session)).
  { apply run_reachable, lot_session_reachable. }
  split; [exact Hr|]. split; [vm_compute; reflexivity|].
  exact (proj1 (@total_revenue_multiple_of_100 rect_pointPolygonTest _ Hr)).
Defined.

(** C9, as stated, fails: on a lot of two spaces the first one is
    available and not occupied in any of three frames, and its record
    stays as it is; yet the first frame, with a car in the second space,
    takes [total_cars] from 0 to 1, and the third, which closes that stay,
    takes [total_time] from 0 to 2 and [total_revenue] from 0 to 200. *)
Lemma idle_space_aggregates_change :
  let pm1 := snd (@process_data rect_pointPolygonTest [car_e] [0] two_space_session) in
  let pm2 := snd (@process_data rect_pointPolygonTest [car_e] [0] pm1) in
  let pm3 := snd (@process_data rect_pointPolygonTest [] [] pm2) in
  @rg_occupied rect_pointPolygonTest region_b [car_e] [0] = false /\
  @rg_occupied rect_pointPolygonTest region_b [] [] = false /\
  spots two_space_session !! 1 = Some new_spot /\
  spots pm1 !! 1 = Some new_spot /\
  spots pm2 !! 1 = Some new_spot /\
  spots pm3 !! 1 = Some new_spot /\
  total_cars (pr_info two_space_session) = 0 /\
  total_cars (pr_info pm1) = 1 /\
  total_time (pr_info pm2) = 0 /\
  total_time (pr_info pm3) = 2 /\
  (total_revenue (pr_info pm2) == 0)%Q /\
  (total_revenue (pr_info pm3) == 200)%Q /\
  ~ (forall pm boxes clss k s r,
        @reachable rect_pointPolygonTest pm ->
        spots pm !! k = Some s -> IsAvailable s = true ->
        json pm !! Z.to_nat (k - 1) = Some r ->
        @rg_occupied rect_pointPolygonTest r boxes clss = false ->
        let pm' := snd (@process_data rect_pointPolygonTest boxes clss pm) in
        spots pm' !! k = Some s /\
        total_cars (pr_info pm') = total_cars (pr_info pm) /\
        total_time (pr_info pm') = total_time (pr_info pm) /\
        (total_revenue (pr_info pm') == total_revenue (pr_info pm))%Q).
Proof.
  cbv zeta. repeat (split; [vm_compute; reflexivity|]).
  intros Hall.
  destruct (Hall two_space_session [car_e] [0] 1 new_spot region_b
              two_space_session_reachable) as (_ & Hcars & _);
    try (vm_compute; reflexivity).
  vm_compute in Hcars. discriminate Hcars.
Qed.

Lemma idle_space_is_untouched_witness :
  let busy := @run rect_pointPolygonTest [([car_e], [0])] two_space_session in
  let closed := @run rect_pointPolygonTest
                  [([car_e], [0]); ([car_e], [0]); ([], [])] two_space_session in
  IsAvailable <$> spots busy !! 2 = Some false /\
  spots (@run rect_pointPolygonTest [([car_e], [0]); ([], [])] busy) !! 1 =
    Some new_spot /\
  total_time (pr_info closed) = 2 /\
  total_time (pr_info (snd (@process_data rect_pointPolygonTest [] [] closed))) = 2 /\
  spots (snd (@process_data rect_pointPolygonTest [] [] closed)) = spots closed /\
  exists drawn,
    fst (@process_data rect_pointPolygonTest [] [] closed) = Done drawn.
Proof.
  cbv zeta.
  assert (Hb : @reachable rect_pointPolygonTest
                 (@run rect_pointPolygonTest [([car_e], [0])] two_space_session)).
  { apply run_reachable, two_space_session_reachable. }
  assert (Hc : @reachable rect_pointPolygonTest
                 (@run rect_pointPolygonTest
                    [([car_e], [0]); ([car_e], [0]); ([], [])] two_space_session)).
  { apply run_reachable, two_space_session_reachable. }
  destruct (@idle_space_is_untouched rect_pointPolygonTest _ [] [] Hb)
    as (_ & Hkeep & _).
  destruct (@idle_space_is_untouched rect_pointPolygonTest _ [] [] Hc)
    as (_ & _ & Hidle).
  split; [vm_compute; reflexivity|].
  split.
  { apply (Hkeep [([car_e], [0]); ([], [])] 1 new_spot region_b).
    - vm_compute. reflexivity.
    - reflexivity.
    - vm_compute. reflexivity.
    - repeat constructor; vm_compute; reflexivity. }
  split; [vm_compute; reflexivity|].
  destruct Hidle as (Hs & _ & Ht & _ & _ & Hdone).
  - intros k s Hs.
    assert (Hk : 1 <= k <= 2).
    { apply (reachable_spots_cover _ Hc k). eauto. }
    assert (Ek : k = 1 \/ k = 2) by lia.
    destruct Ek as [-> | ->]; vm_compute in Hs; injection Hs as <-; reflexivity.
  - vm_compute. repeat constructor.
  - split; [rewrite Ht; vm_compute; reflexivity|]. split; [exact Hs|].
    destruct Hdone as [drawn ->].
    + vm_compute. repeat constructor; discriminate.
    + eexists. reflexivity.
Defined.

(** ** The opening frame *)

(** In the frame that opens a session the second [if] makes the space
    unavailable and the fourth [if], which reads the flag again, then ticks
    it: two rows of the table are applied. *)
Lemma update_spot_opening (idx : Z) pm s p :
  spots pm !! (idx + 1) = Some s -> IsAvailable s = true ->
  price_per_hour pm = Some p ->
  update_spot idx true pm =
    (Ok tt,
     mkPM (json pm) (set_total_cars (total_cars (pr_info pm) + 1) (pr_info pm))
          (Some p)
          (<[idx + 1 := mkSpot (Time s + 1)
                          (calc_invoice (inject_Z (Time s + 1)) p) false]>
             (spots pm))).
Proof.
  intros Hs Ha Hp. rewrite (update_spot_step _ _ _ _ Hs), Hp.
  unfold spot_step. rewrite Ha. reflexivity.
Qed.

(** C1 (the code at the failing input): on the one-space lot at 6000 an
    hour the first occupied frame leaves [Time] = 1 and a non-zero
    [Invoice], not 0; after four occupied frames [Time] is 4, not 3; the
    closing frame adds 4 to [total_time] and
    [round_invoice(calc_invoice(4, 6000))] = 400 to [total_revenue], not 3
    and 300. *)
Theorem opening_frame_also_ticks :
  let pm1 := frames 1 [car] [0] lot_session in
  let pm4 := frames 4 [car] [0] lot_session in
  let pm5 := frames 1 [] [] pm4 in
  __init__ lot_files (Some 6000%Q) (Some "lot.json"%string) = Ok lot_session /\
  @rg_occupied rect_pointPolygonTest region_b [car] [0] = true /\
  @rg_occupied rect_pointPolygonTest region_b [] [] = false /\
  (exists s,
      spots pm1 !! 1 = Some s /\ IsAvailable s = false /\ Time s = 1 /\
      (Invoice s == calc_invoice 1 6000)%Q /\ ~ (Invoice s == 0)%Q) /\
  total_cars (pr_info pm1) = 1 /\
  (exists s,
      spots pm4 !! 1 = Some s /\ IsAvailable s = false /\ Time s = 4 /\
      (Invoice s == calc_invoice 4 6000)%Q) /\
  spots pm5 !! 1 = Some new_spot /\
  total_cars (pr_info pm5) = 1 /\
  total_time (pr_info pm5) = 4 /\
  (total_revenue (pr_info pm5) == round_invoice (calc_invoice 4 6000))%Q /\
  (total_revenue (pr_info pm5) == 400)%Q /\
  (round_invoice (calc_invoice 3 6000) == 300)%Q.
Proof.
  cbv zeta.
  split; [reflexivity|]. split; [reflexivity|]. split; [reflexivity|].
  split.
  { eexists. split; [vm_compute; reflexivity|].
    repeat split; try reflexivity. intros E. vm_compute in E. discriminate. }
  split; [reflexivity|].
  split.
  { eexists. split; [vm_compute; reflexivity|]. repeat split. }
  split; [vm_compute; reflexivity|].
  repeat split.
Qed.


(** * Further properties of parking_management.py *)

(** ** More on the invoice helpers *)

Lemma Qfloor_zero_iff (q : Q) : Qfloor q = 0 <-> (0 <= q /\ q < 1)%Q.
Proof.
  split.
  - intros E. assert (H1 := Qfloor_le q). assert (H2 := Qlt_floor q).
    rewrite E in H1, H2. split; [exact H1 | exact H2].
  - intros [H0 H1].
    assert (Hle : 0 <= Qfloor q).
    { change 0 with (Qfloor 0). apply Qfloor_resp_le, H0. }
    assert (Hlt : Qfloor q < 1).
    { rewrite Zlt_Qlt. eapply Qle_lt_trans; [apply Qfloor_le | exact H1]. }
    lia.
Qed.

Lemma round_invoice_zero_iff (a : Q) :
  (round_invoice a == 0)%Q <-> (0 <= a /\ a < 100)%Q.
Proof.
  unfold round_invoice, py_floordiv. split.
  - intros E.
    assert (E0 : Qfloor (a / 100) = 0).
    { apply inject_Z_injective.
      assert (E' : (inject_Z (Qfloor (a / 100)) * 100 * / 100 == 0 * / 100)%Q)
        by (rewrite E; reflexivity).
      rewrite <- Qmult_assoc, Qmult_inv_r, Qmult_1_r in E' by discriminate.
      rewrite E'. reflexivity. }
    apply Qfloor_zero_iff in E0 as [H0 H1]. split.
    + apply (Qmult_le_compat_r _ _ 100) in H0; [|discriminate].
      assert (E1 : (a / 100 * 100 == a)%Q) by field. rewrite E1 in H0. exact H0.
    + apply (Qmult_lt_compat_r _ _ 100) in H1; [|reflexivity].
      assert (E1 : (a / 100 * 100 == a)%Q) by field. rewrite E1 in H1. exact H1.
  - intros [H0 H1].
    assert (E0 : Qfloor (a / 100) = 0).
    { apply Qfloor_zero_iff. split.
      - apply Qle_shift_div_l; [reflexivity | exact H0].
      - apply Qlt_shift_div_r; [reflexivity | exact H1]. }
    rewrite E0. reflexivity.
Qed.

Lemma round_invoice_nonneg (a : Q) : (0 <= a)%Q -> (0 <= round_invoice a)%Q.
Proof.
  intros Ha. unfold round_invoice, py_floordiv.
  apply Qmult_le_0_compat; [|discriminate].
  change 0%Q with (inject_Z 0). rewrite <- Zle_Qle.
  change 0 with (Qfloor 0). apply Qfloor_resp_le.
  apply Qle_shift_div_l; [reflexivity|]. rewrite Qmult_0_l. exact Ha.
Qed.

#[global] Instance round_invoice_proper : Proper (Qeq ==> Qeq) round_invoice.
Proof.
  intros a b E. unfold round_invoice. rewrite E. reflexivity.
Qed.

(** X1: on amounts that are not negative (where the floor of [//] on
    [int] and [float] and the truncation of [//] on [Decimal] agree),
    [round_invoice] never reverses the order of two amounts and never
    returns a negative one, rounding an amount that is already rounded
    changes nothing, and the result is 0 exactly for the amounts below
    100. *)
Theorem round_invoice_monotone_idempotent (x y : Q) :
  (0 <= x)%Q ->
  ((x <= y)%Q -> (0 <= round_invoice x /\ round_invoice x <= round_invoice y)%Q) /\
  (round_invoice (round_invoice x) == round_invoice x)%Q /\
  ((round_invoice x == 0)%Q <-> (x < 100)%Q).
Proof.
  intros Hx. split; [|split].
  - intros Hxy. split; [apply round_invoice_nonneg, Hx|].
    unfold round_invoice, py_floordiv.
    apply Qmult_le_compat_r; [|discriminate].
    rewrite <- Zle_Qle. apply Qfloor_resp_le.
    apply Qmult_le_compat_r; [exact Hxy | discriminate].
  - rewrite (round_invoice_multiple x) at 1.
    rewrite round_invoice_int, round_invoice_multiple.
    apply inject_Z_injective.
    rewrite (Z.mul_comm 100 (Qfloor (x / 100))), Z.div_mul by lia. reflexivity.
  - rewrite round_invoice_zero_iff. split; [intros [_ H]; exact H | auto].
Qed.

Lemma round_invoice_monotone_idempotent_witness :
  (0 <= 99)%Q /\ (99 <= 250)%Q /\ (round_invoice 99 <= round_invoice 250)%Q /\
  (round_invoice 99 == 0)%Q.
Proof.
  destruct (round_invoice_monotone_idempotent 99 250) as (Hmono & _ & Hzero);
    [discriminate|].
  split; [discriminate|]. split; [discriminate|].
  split; [apply Hmono; discriminate|].
  apply Hzero. reflexivity.
Defined.

(** ** More on the ordering of the annotations *)

Lemma py_min_perm (l l' : list Z) : Permutation l l' -> py_min l = py_min l'.
Proof.
  intros Hp. destruct (py_min l) as [m|e] eqn:E, (py_min l') as [m'|e'] eqn:E'.
  - apply py_min_spec in E as [Hin Hle]. apply py_min_spec in E' as [Hin' Hle'].
    f_equal. apply Z.le_antisymm.
    + apply Hle. eapply Permutation_in; [apply Permutation_sym, Hp | exact Hin'].
    + apply Hle'. eapply Permutation_in; [exact Hp | exact Hin].
  - destruct l' as [|? ?]; [|discriminate]. apply Permutation_nil_r in Hp.
    subst l. discriminate.
  - destruct l as [|? ?]; [|discriminate]. apply Permutation_nil in Hp.
    subst l'. discriminate.
  - destruct l, l'; try discriminate. congruence.
Qed.

(** X2: [get_min_coords] raises [ValueError] exactly on a polygon without
    points, and its key does not depend on the order in which the vertices
    of a polygon are listed. *)
Theorem get_min_coords_vertex_order (polygon : region) :
  (get_min_coords polygon = Raise ValueError <-> points polygon = []) /\
  (forall e, get_min_coords polygon = Raise e -> e = ValueError) /\
  (forall polygon',
      Permutation (points polygon) (points polygon') ->
      get_min_coords polygon' = get_min_coords polygon).
Proof.
  split; [|split].
  - unfold get_min_coords. destruct (points polygon) as [|p ps]; simpl.
    + split; reflexivity.
    + split; discriminate.
  - intros e. unfold get_min_coords.
    destruct (points polygon) as [|p ps]; simpl; congruence.
  - intros polygon' Hp. unfold get_min_coords.
    rewrite <- (py_min_perm (map fst (points polygon)) (map fst (points polygon')))
      by (apply Permutation_map, Hp).
    rewrite <- (py_min_perm (map snd (points polygon)) (map snd (points polygon')))
      by (apply Permutation_map, Hp).
    reflexivity.
Qed.

Lemma get_min_coords_vertex_order_witness :
  get_min_coords (mkRegion [(1718, 40); (1553, 48); (1577, 133); (1735, 128)]) =
  get_min_coords region_a.
Proof.
  apply (get_min_coords_vertex_order region_a).
  simpl. etransitivity; [apply perm_swap|]. do 2 apply perm_skip. apply perm_swap.
Defined.

Lemma sort_by_key_sorted_id (kl : list ((Z * Z) * region)) :
  StronglySorted by_key kl -> sort_by_key kl = kl.
Proof.
  induction 1 as [|x kl Hs IH Hx]; [reflexivity|].
  change (sort_by_key (x :: kl)) with (insert_by_key x (sort_by_key kl)).
  rewrite IH.
  destruct kl as [|y kl]; simpl; [reflexivity|].
  apply Forall_cons_1 in Hx as [Hxy _].
  unfold by_key, key_le in Hxy. rewrite Hxy. reflexivity.
Qed.

Lemma redecorate (kl : list ((Z * Z) * region)) :
  Forall (fun e => (key_of (snd e), snd e) = e) kl ->
  map (fun r => (key_of r, r)) (map snd kl) = kl.
Proof.
  induction 1 as [|e kl He _ IH]; simpl; [reflexivity|].
  rewrite He, IH. reflexivity.
Qed.

(** X3: the stored order is a fixed point: sorting a list that
    [sorted(..., key=get_min_coords)] returned gives the same list again,
    so submitting the stored configuration keeps every id; and sorting
    neither drops nor adds a polygon. *)
Theorem sorting_is_idempotent (l sorted : list region) :
  sorting_annotation_data l = Ok sorted ->
  sorting_annotation_data sorted = Ok sorted /\
  length sorted = length l /\
  (forall r, In r sorted <-> In r l).
Proof.
  intros E. apply sorting_annotation_data_Ok in E as [HF ->].
  set (dec := fun r => (key_of r, r)).
  assert (Hperm := sort_by_key_perm (map dec l)).
  assert (Hl : Permutation l (map snd (sort_by_key (map dec l)))).
  { rewrite <- Hperm, map_map, map_id. reflexivity. }
  split; [|split].
  - apply sorting_annotation_data_Ok. split.
    + eapply Permutation_Forall; [exact Hl | exact HF].
    + f_equal.
      assert (Hdec : map dec (map snd (sort_by_key (map dec l)))
                     = sort_by_key (map dec l)).
      { assert (Hent : Forall (fun e => dec (snd e) = e) (sort_by_key (map dec l))).
        { eapply Permutation_Forall; [exact Hperm|].
          apply List.Forall_forall. intros e He.
          apply in_map_iff in He as (r & <- & _). reflexivity. }
        apply redecorate, Hent. }
      fold dec. rewrite Hdec. symmetry.
      apply sort_by_key_sorted_id, sort_by_key_sorted.
  - symmetry. apply Permutation_length, Hl.
  - intros r. split; intros Hr.
    + eapply Permutation_in; [apply Permutation_sym, Hl | exact Hr].
    + eapply Permutation_in; [exact Hl | exact Hr].
Qed.

Lemma sorting_is_idempotent_witness :
  sorting_annotation_data [region_b; region_a] = Ok [region_b; region_a] /\
  length [region_b; region_a] = length [region_a; region_b].
Proof.
  destruct (sorting_is_idempotent [region_a; region_b] [region_b; region_a] eq_refl)
    as (H1 & H2 & _).
  split; [exact H1 | exact H2].
Defined.


(** ** When a frame raises *)

Lemma update_spot_outcome (idx : Z) (occ : bool) pm s :
  spots pm !! (idx + 1) = Some s ->
  fst (update_spot idx occ pm) =
    if occ then
      match price_per_hour pm with
      | Some _ => Ok tt
      | None => Raise TypeError
      end
    else Ok tt.
Proof.
  intros Hs. rewrite (update_spot_step _ _ _ _ Hs). unfold spot_step.
  destruct (IsAvailable s), occ, (price_per_hour pm); reflexivity.
Qed.

Section Outcome.
Context `{PolygonTest}.
Variables (boxes : list box) (clss : list Z).

Lemma states_loop_outcome regions :
  forall idx fs es pm,
    (forall j, 0 <= j < Z.of_nat (length regions) ->
               is_Some (spots pm !! (idx + j + 1))) ->
    match fst (states_loop boxes clss idx regions fs es pm) with
    | Ok _ =>
        is_Some (price_per_hour pm) \/
        Forall (fun r => rg_occupied r boxes clss = false) regions
    | Raise e =>
        e = TypeError /\ price_per_hour pm = None /\
        Exists (fun r => rg_occupied r boxes clss = true) regions
    end.
Proof.
  induction regions as [|r rest IH]; intros idx fs es pm Hk.
  - simpl. right. constructor.
  - rewrite states_loop_cons. cbv zeta.
    destruct (Hk 0) as [s Hs]; [simpl length; lia|].
    replace (idx + 0 + 1) with (idx + 1) in Hs by lia.
    assert (Hout := update_spot_outcome idx (rg_occupied r boxes clss) pm s Hs).
    destruct (update_spot_frame idx (rg_occupied r boxes clss) pm)
      as (_ & Hprice & _ & _ & _ & Hdom).
    destruct (update_spot idx (rg_occupied r boxes clss) pm) as [[[]|e] pm1];
      simpl in *.
    + specialize (IH (idx + 1)
                     (if rg_occupied r boxes clss then fs + 1 else fs)
                     (if rg_occupied r boxes clss then es - 1 else es) pm1).
      rewrite Hprice in IH.
      destruct (fst (states_loop boxes clss (idx + 1) rest _ _ pm1)) as [v|e].
      * destruct IH as [Hp|Hv]; auto.
        -- intros j Hj. apply Hdom.
           replace (idx + 1 + j + 1) with (idx + (j + 1) + 1) by lia.
           apply Hk. simpl length. lia.
        -- destruct (rg_occupied r boxes clss) eqn:Hocc.
           ++ left. destruct (price_per_hour pm); [eauto | discriminate].
           ++ right. constructor; assumption.
      * destruct IH as (-> & Hp & Hex).
        -- intros j Hj. apply Hdom.
           replace (idx + 1 + j + 1) with (idx + (j + 1) + 1) by lia.
           apply Hk. simpl length. lia.
        -- repeat split; auto.
    + destruct (rg_occupied r boxes clss) eqn:Hocc; [|discriminate].
      destruct (price_per_hour pm); [discriminate|].
      injection Hout as ->. repeat split. apply Exists_cons_hd. exact Hocc.
Qed.

Lemma states_frame_outcome pm :
  spots_cover pm ->
  (fst (states_frame boxes clss pm) = Ok tt \/
   fst (states_frame boxes clss pm) = Raise TypeError) /\
  (fst (states_frame boxes clss pm) = Raise TypeError <->
   price_per_hour pm = None /\
   exists r, In r (json pm) /\ rg_occupied r boxes clss = true) /\
  (fst (states_frame boxes clss pm) = Raise TypeError ->
   Occupancy (pr_info (snd (states_frame boxes clss pm))) = Occupancy (pr_info pm) /\
   Available (pr_info (snd (states_frame boxes clss pm))) = Available (pr_info pm)).
Proof.
  intros Hcover.
  assert (Hout := states_loop_outcome (json pm) 0 0 (Z.of_nat (length (json pm))) pm).
  assert (Hstale := states_loop_preserves boxes clss
            (fun x => Occupancy (pr_info x) = Occupancy (pr_info pm) /\
                      Available (pr_info x) = Available (pr_info pm))).
  assert (Hst : forall idx v pm0,
             Occupancy (pr_info pm0) = Occupancy (pr_info pm) /\
             Available (pr_info pm0) = Available (pr_info pm) ->
             Occupancy (pr_info (snd (update_spot idx v pm0))) = Occupancy (pr_info pm) /\
             Available (pr_info (snd (update_spot idx v pm0))) = Available (pr_info pm)).
  { intros idx v pm0 [Ho Ha].
    destruct (update_spot_frame idx v pm0) as (_ & _ & -> & -> & _). auto. }
  specialize (Hstale Hst (json pm) 0 0 (Z.of_nat (length (json pm))) pm
                     (conj eq_refl eq_refl)).
  rewrite states_frame_unfold.
  destruct (states_loop boxes clss 0 (json pm) 0 (Z.of_nat (length (json pm))) pm)
    as [[[fs es]|e] pm'] eqn:E; simpl in *.
  - split; [left; reflexivity|]. split; [|discriminate].
    split; [discriminate|]. intros (Hp & r & Hin & Hocc). exfalso.
    destruct Hout as [[p Hp']|Hv].
    + intros j Hj. apply Hcover. lia.
    + congruence.
    + rewrite List.Forall_forall in Hv. specialize (Hv r Hin). congruence.
  - destruct Hout as (-> & Hp & Hex).
    + intros j Hj. apply Hcover. lia.
    + split; [right; reflexivity|]. split; [|intros _; exact Hstale].
      split; [|reflexivity]. intros _. split; [exact Hp|].
      apply List.Exists_exists in Hex as (r & Hin & Hocc). eauto.
Qed.

(** X4: in a running session whose polygons all have a point, a
    frame-cycle (the drawing included) either completes or raises
    [TypeError], nothing else (no [KeyError], no [IndexError]); it raises
    exactly when the session has no price and the frame occupies some
    space, and then the counters [Occupancy] and [Available] keep the
    values of the frame before. *)
Theorem frame_raises_only_without_price pm :
  reachable pm ->
  Forall (fun r => points r <> []) (json pm) ->
  ((exists drawn, fst (process_data boxes clss pm) = Done drawn) \/
   fst (process_data boxes clss pm) = Fail (Exn TypeError)) /\
  (fst (process_data boxes clss pm) = Fail (Exn TypeError) <->
   price_per_hour pm = None /\
   exists r, In r (json pm) /\ rg_occupied r boxes clss = true) /\
  (fst (process_data boxes clss pm) = Fail (Exn TypeError) ->
   Occupancy (pr_info (snd (process_data boxes clss pm))) = Occupancy (pr_info pm) /\
   Available (pr_info (snd (process_data boxes clss pm))) = Available (pr_info pm)).
Proof.
  intros Hr Hne.
  destruct (states_frame_outcome pm (reachable_spots_cover pm Hr))
    as (Hcases & Hiff & Hstale).
  destruct (process_data_state boxes clss pm Hne) as [Hsnd Hfst].
  rewrite Hsnd.
  destruct (fst (states_frame boxes clss pm)) as [[]|e] eqn:E.
  - destruct Hfst as (drawn & Hd & _). rewrite Hd.
    split; [left; eauto|]. split; [|discriminate].
    split; [discriminate|]. intros Hp. apply Hiff in Hp. discriminate.
  - rewrite Hfst. destruct Hcases as [?|[= ->]]; [discriminate|].
    split; [right; reflexivity|]. split; [|intros _; apply Hstale; reflexivity].
    split; [intros _; apply Hiff; reflexivity | reflexivity].
Qed.

End Outcome.

Lemma frame_raises_only_without_price_witness :
  let pm := mkPM one_space (mkInfo 0 0 0 0 0) None (init_spots 1) in
  fst (@process_data rect_pointPolygonTest [car] [0] pm) = Fail (Exn TypeError) /\
  Occupancy (pr_info (snd (@process_data rect_pointPolygonTest [car] [0] pm))) = 0.
Proof.
  cbv zeta.
  assert (Hr : @reachable rect_pointPolygonTest
                 (mkPM one_space (mkInfo 0 0 0 0 0) None (init_spots 1))).
  { apply (reachable_init lot_files None (Some "lot.json"%string)). reflexivity. }
  destruct (@frame_raises_only_without_price rect_pointPolygonTest [car] [0] _ Hr)
    as (_ & Hiff & Hstale).
  { repeat constructor. discriminate. }
  assert (Hraise : fst (@process_data rect_pointPolygonTest [car] [0]
                          (mkPM one_space (mkInfo 0 0 0 0 0) None (init_spots 1)))
                   = Fail (Exn TypeError)).
  { apply Hiff. split; [reflexivity|]. exists region_b.
    split; [left; reflexivity | reflexivity]. }
  split; [exact Hraise|]. exact (proj1 (Hstale Hraise)).
Defined.

(** ** The running time and the running invoice *)

Lemma calc_invoice_zero (p : Q) : (calc_invoice (inject_Z 0) p == 0)%Q.
Proof. rewrite calc_invoice_exact. change (inject_Z 0) with 0%Q. ring. Qed.

Lemma spot_step_consistent (price : option Q) (occ : bool) (s : spot) (i : info) :
  0 <= Time s -> (IsAvailable s = false -> 1 <= Time s) ->
  (Invoice s == match price with
                | Some p => calc_invoice (inject_Z (Time s)) p
                | None => 0
                end)%Q ->
  let s' := snd (fst (spot_step price occ s i)) in
  0 <= Time s' /\ (IsAvailable s' = false -> 1 <= Time s') /\
  (Invoice s' == match price with
                 | Some p => calc_invoice (inject_Z (Time s')) p
                 | None => 0
                 end)%Q.
Proof.
  intros H0 H1 Hi. unfold spot_step.
  destruct (IsAvailable s) eqn:Ha, occ, price as [p|]; simpl;
    repeat split; simpl; try lia; try (intros ?; lia);
    try (intros ?; congruence); try assumption; try reflexivity;
    symmetry; apply calc_invoice_zero.
Qed.

Lemma update_spot_running_consistent (idx : Z) (occ : bool) pm :
  running_consistent pm -> running_consistent (snd (update_spot idx occ pm)).
Proof.
  unfold running_consistent. intros HP k s.
  destruct (update_spot_frame idx occ pm) as (_ & Hprice & _ & _ & Hne & _).
  rewrite Hprice.
  destruct (decide (k = idx + 1)) as [->|Hk].
  - destruct (spots pm !! (idx + 1)) as [s0|] eqn:Hs0.
    + rewrite (update_spot_step _ _ _ _ Hs0).
      destruct (HP _ _ Hs0) as (H0 & H1 & Hi).
      assert (Hc := spot_step_consistent (price_per_hour pm) occ s0
                      (pr_info pm) H0 H1 Hi).
      destruct (spot_step (price_per_hour pm) occ s0 (pr_info pm))
        as [[r s'] i'].
      simpl. rewrite lookup_insert_eq. intros [= <-]. exact Hc.
    + rewrite (update_spot_missing _ _ _ Hs0). simpl. congruence.
  - rewrite (Hne k Hk). apply HP.
Qed.

Section Running.
Context `{PolygonTest}.

Lemma reachable_running_consistent pm :
  reachable pm -> running_consistent pm.
Proof.
  apply reachable_invariant.
  - unfold running_consistent.
    intros open_json price json_file pm0 E k s Hs.
    apply init_Ok in E as (path & _ & _ & Hp & _ & E).
    rewrite E, init_spots_lookup in Hs. case_decide; [|discriminate].
    injection Hs as <-. simpl. repeat split; try lia; try discriminate.
    destruct (price_per_hour pm0); [symmetry; apply calc_invoice_zero | reflexivity].
  - apply update_spot_running_consistent.
  - intros fs es pm0 HP k s. apply HP.
Qed.

(** X5: in a session as constructed and after any number of frame-cycles,
    complete or not, the [Time] of a space is never negative and is at least 1 while the
    space is taken, and its [Invoice] is always [calc_invoice] of its
    current [Time] at the price of the session (and 0 in a session without
    a price). *)
Theorem running_invoice_follows_time pm (k : Z) (s : spot) :
  reachable pm -> spots pm !! k = Some s ->
  0 <= Time s /\ (IsAvailable s = false -> 1 <= Time s) /\
  (Invoice s ==
     match price_per_hour pm with
     | Some p => calc_invoice (inject_Z (Time s)) p
     | None => 0
     end)%Q.
Proof. intros Hr. apply (reachable_running_consistent pm Hr). Qed.

End Running.

Lemma running_invoice_follows_time_witness :
  exists s,
    spots (@run rect_pointPolygonTest [([car], [0]); ([car], [0]); ([car], [0])]
             lot_session) !! 1 = Some s /\
    1 <= Time s /\ (Invoice s == calc_invoice (inject_Z (Time s)) 6000)%Q.
Proof.
  assert (Hr : @reachable rect_pointPolygonTest
                 (@run rect_pointPolygonTest
                    [([car], [0]); ([car], [0]); ([car], [0])] lot_session)).
  { apply run_reachable, lot_session_reachable. }
  eexists. split; [vm_compute; reflexivity|].
  destruct (@running_invoice_follows_time rect_pointPolygonTest _ 1 _ Hr
              ltac:(vm_compute; reflexivity)) as (_ & H1 & Hi).
  split; [apply H1; reflexivity | exact Hi].
Defined.


(** ** The accounts of a session *)

Lemma open_minutes_insert (m : gmap Z spot) (k : Z) (s s' : spot) :
  m !! k = Some s ->
  map_fold (fun (_ : Z) (s : spot) (acc : Z) => Time s + acc) 0 (<[k := s']> m) =
  map_fold (fun (_ : Z) (s : spot) (acc : Z) => Time s + acc) 0 m
    - Time s + Time s'.
Proof.
  intros Hs.
  rewrite (map_fold_delete_L _ 0 k s m); [|intros; lia | exact Hs].
  rewrite (map_fold_delete_L _ 0 k s' (<[k := s']> m));
    [|intros; lia | apply lookup_insert_eq].
  rewrite delete_insert_eq. lia.
Qed.

Lemma open_minutes_zero (m : gmap Z spot) :
  (forall k s, m !! k = Some s -> Time s = 0) ->
  map_fold (fun (_ : Z) (s : spot) (acc : Z) => Time s + acc) 0 m = 0.
Proof.
  induction m as [|k s m Hk IH] using map_ind; intros Hz.
  - apply map_fold_empty.
  - rewrite map_fold_insert_L; [|intros; lia | exact Hk].
    rewrite IH, (Hz k s) by (try apply lookup_insert_eq;
      intros k' s' Hs'; apply (Hz k' s'); rewrite lookup_insert_ne; congruence).
    reflexivity.
Qed.

Lemma update_spot_minutes (idx : Z) (occ : bool) pm s :
  spots pm !! (idx + 1) = Some s ->
  let pm' := snd (update_spot idx occ pm) in
  total_time (pr_info pm') + open_minutes pm' =
  total_time (pr_info pm) + open_minutes pm + (if occ then 1 else 0).
Proof.
  intros Hs. rewrite (update_spot_step _ _ _ _ Hs). unfold spot_step, open_minutes.
  destruct (IsAvailable s) eqn:Ha, occ, (price_per_hour pm); simpl;
    rewrite (open_minutes_insert _ _ s _ Hs); simpl; lia.
Qed.

Section Accounts.
Context `{PolygonTest}.

Lemma states_loop_minutes boxes clss regions :
  forall idx fs es pm fs' es' pm',
    states_loop boxes clss idx regions fs es pm = (Ok (fs', es'), pm') ->
    total_time (pr_info pm') + open_minutes pm' =
    total_time (pr_info pm) + open_minutes pm + occupied_regions regions boxes clss.
Proof.
  unfold occupied_regions.
  induction regions as [|r rest IH]; intros idx fs es pm fs' es' pm' E.
  - inversion E; subst. simpl. lia.
  - rewrite states_loop_cons in E. cbv zeta in E.
    destruct (spots pm !! (idx + 1)) as [s|] eqn:Hs.
    + assert (Hm := update_spot_minutes idx (rg_occupied r boxes clss) pm s Hs).
      destruct (update_spot idx (rg_occupied r boxes clss) pm) as [[[]|e] pm1];
        [|discriminate].
      apply IH in E. simpl in Hm. simpl.
      destruct (rg_occupied r boxes clss); simpl length; lia.
    + rewrite (update_spot_missing _ _ _ Hs) in E. discriminate.
Qed.

Lemma states_frame_minutes boxes clss pm :
  fst (states_frame boxes clss pm) = Ok tt ->
  let pm' := snd (states_frame boxes clss pm) in
  total_time (pr_info pm') + open_minutes pm' =
  total_time (pr_info pm) + open_minutes pm
    + occupied_regions (json pm) boxes clss.
Proof.
  rewrite states_frame_unfold.
  destruct (states_loop boxes clss 0 (json pm) 0 (Z.of_nat (length (json pm))) pm)
    as [[[fs es]|e] pm'] eqn:E; [|discriminate].
  intros _. apply states_loop_minutes in E. exact E.
Qed.

(** X6: in a session that has a price and whose polygons all have a point
    no frame is lost and none is counted twice: after any sequence of
    frames, the minutes billed so far ([total_time]) plus the minutes of
    the sessions still open (the sum of [Time] over the spaces) have grown
    by the number of pairs (frame, space) in which the space was occupied;
    from construction on they are equal to that number. *)
Theorem minutes_account_for_every_occupied_frame
    (frames : list (list box * list Z)) pm :
  reachable pm -> is_Some (price_per_hour pm) ->
  Forall (fun r => points r <> []) (json pm) ->
  total_time (pr_info (run frames pm)) + open_minutes (run frames pm) =
    total_time (pr_info pm) + open_minutes pm + occupied_verdicts (json pm) frames /\
  (forall open_json price json_file,
      __init__ open_json price json_file = Ok pm ->
      total_time (pr_info (run frames pm)) + open_minutes (run frames pm) =
        occupied_verdicts (json pm) frames).
Proof.
  intros Hr Hp Hne.
  assert (Hgen : total_time (pr_info (run frames pm)) + open_minutes (run frames pm) =
            total_time (pr_info pm) + open_minutes pm
              + occupied_verdicts (json pm) frames).
  { revert pm Hr Hp Hne.
    induction frames as [|[boxes clss] rest IH]; intros pm Hr Hp Hne.
    - simpl. lia.
    - simpl. destruct (reachable_json_price boxes clss pm) as [Hj Hpr].
      rewrite IH.
      + rewrite Hj.
        rewrite (proj1 (process_data_state boxes clss pm Hne)).
        rewrite (states_frame_minutes boxes clss pm
                   (states_frame_Ok boxes clss pm
                      (reachable_spots_cover pm Hr) Hp)).
        lia.
      + apply reachable_frame, Hr.
      + rewrite Hpr. exact Hp.
      + rewrite Hj. exact Hne. }
  split; [exact Hgen|].
  intros open_json price json_file E. rewrite Hgen.
  apply init_Ok in E as (path & _ & _ & _ & Hi & Hs).
  rewrite Hi. unfold open_minutes. rewrite Hs, open_minutes_zero; [simpl; lia|].
  intros k s. rewrite init_spots_lookup. case_decide; [|discriminate].
  intros [= <-]. reflexivity.
Qed.

End Accounts.

Lemma minutes_account_for_every_occupied_frame_witness :
  let fr := [([car], [0]); ([car], [0]); ([], []); ([car], [0])] in
  total_time (pr_info (@run rect_pointPolygonTest fr lot_session))
    + open_minutes (@run rect_pointPolygonTest fr lot_session) =
  @occupied_verdicts rect_pointPolygonTest (json lot_session) fr.
Proof.
  cbv zeta.
  destruct (@minutes_account_for_every_occupied_frame rect_pointPolygonTest
              [([car], [0]); ([car], [0]); ([], []); ([car], [0])] lot_session
              lot_session_reachable (ex_intro _ 6000%Q eq_refl)) as [_ Hinit].
  { repeat constructor. discriminate. }
  apply (Hinit lot_files (Some 6000%Q) (Some "lot.json"%string)). reflexivity.
Defined.

(** ** Counters that only grow *)

Lemma calc_invoice_nonneg (t : Z) (p : Q) :
  0 <= t -> (0 <= p)%Q -> (0 <= calc_invoice (inject_Z t) p)%Q.
Proof.
  intros Ht Hp. rewrite calc_invoice_exact.
  apply Qmult_le_0_compat.
  - apply Qle_shift_div_l; [reflexivity|]. rewrite Qmult_0_l. exact Hp.
  - change 0%Q with (inject_Z 0). rewrite <- Zle_Qle. exact Ht.
Qed.

Lemma update_spot_monotone (idx : Z) (occ : bool) pm :
  running_consistent pm ->
  let pm' := snd (update_spot idx occ pm) in
  total_cars (pr_info pm) <= total_cars (pr_info pm') /\
  total_time (pr_info pm) <= total_time (pr_info pm') /\
  ((forall p, price_per_hour pm = Some p -> (0 <= p)%Q) ->
   (total_revenue (pr_info pm) <= total_revenue (pr_info pm'))%Q).
Proof.
  intros HP. destruct (spots pm !! (idx + 1)) as [s|] eqn:Hs.
  - rewrite (update_spot_step _ _ _ _ Hs). unfold spot_step.
    destruct (HP _ _ Hs) as (H0 & _ & Hi).
    destruct (IsAvailable s), occ, (price_per_hour pm) as [p|]; simpl;
      repeat split; try lia; intros Hp; try apply Qle_refl.
    + rewrite <- (Qplus_0_r (total_revenue (pr_info pm))) at 1.
      apply Qplus_le_compat; [apply Qle_refl|].
      apply round_invoice_nonneg. rewrite Hi.
      apply calc_invoice_nonneg; [exact H0 | apply Hp; reflexivity].
    + rewrite <- (Qplus_0_r (total_revenue (pr_info pm))) at 1.
      apply Qplus_le_compat; [apply Qle_refl|].
      apply round_invoice_nonneg. rewrite Hi. apply Qle_refl.
  - rewrite (update_spot_missing _ _ _ Hs). simpl.
    repeat split; try lia. intros _. apply Qle_refl.
Qed.

Section Monotone.
Context `{PolygonTest}.

(** X7: a frame-cycle of a running session, complete or not, never lowers
    [total_cars] or [total_time]; and when the price of the session is not
    negative (or is missing) it never lowers [total_revenue]. *)
Theorem cumulative_counters_never_decrease pm (boxes : list box) (clss : list Z) :
  reachable pm ->
  let pm' := snd (process_data boxes clss pm) in
  total_cars (pr_info pm) <= total_cars (pr_info pm') /\
  total_time (pr_info pm) <= total_time (pr_info pm') /\
  ((forall p, price_per_hour pm = Some p -> (0 <= p)%Q) ->
   (total_revenue (pr_info pm) <= total_revenue (pr_info pm'))%Q).
Proof.
  intros Hr.
  apply (process_data_preserves boxes clss
           (fun x => running_consistent x /\
                     price_per_hour x = price_per_hour pm /\
                     total_cars (pr_info pm) <= total_cars (pr_info x) /\
                     total_time (pr_info pm) <= total_time (pr_info x) /\
                     ((forall p, price_per_hour pm = Some p -> (0 <= p)%Q) ->
                      (total_revenue (pr_info pm) <= total_revenue (pr_info x))%Q))).
  - intros idx occ pm0 (Hc & Hprice & Hcars & Htime & Hrev).
    destruct (update_spot_monotone idx occ pm0 Hc) as (Hcars' & Htime' & Hrev').
    destruct (update_spot_frame idx occ pm0) as (_ & Hprice' & _).
    split; [apply update_spot_running_consistent, Hc|].
    split; [congruence|]. split; [lia|]. split; [lia|].
    intros Hp. eapply Qle_trans; [apply Hrev, Hp|].
    apply Hrev'. rewrite Hprice. exact Hp.
  - intros fs es pm0 (Hc & Hprice & Hcars & Htime & Hrev). auto.
  - split; [apply reachable_running_consistent, Hr|].
    split; [reflexivity|]. split; [lia|]. split; [lia|].
    intros _. apply Qle_refl.
Qed.

End Monotone.

Lemma cumulative_counters_never_decrease_witness :
  (total_revenue (pr_info (@run rect_pointPolygonTest
                             [([car], [0%Z]); ([car], [0%Z])] lot_session)) <=
   total_revenue (pr_info (snd (@process_data rect_pointPolygonTest [] []
                                  (@run rect_pointPolygonTest
                                     [([car], [0%Z]); ([car], [0%Z])] lot_session)))))%Q.
Proof.
  assert (Hr : @reachable rect_pointPolygonTest
                 (@run rect_pointPolygonTest [([car], [0]); ([car], [0])] lot_session)).
  { apply run_reachable, lot_session_reachable. }
  destruct (@cumulative_counters_never_decrease rect_pointPolygonTest _ [] [] Hr)
    as (_ & _ & Hrev).
  apply Hrev. intros p Hp. vm_compute in Hp. injection Hp as <-. discriminate.
Defined.

(** ** Detections: their order and their classes *)

Lemma existsb_perm {A} (f : A -> bool) (l l' : list A) :
  Permutation l l' -> existsb f l = existsb f l'.
Proof.
  induction 1 as [|x l l' _ IH|x y l|l l' l'' _ IH1 _ IH2]; simpl.
  - reflexivity.
  - rewrite IH. reflexivity.
  - destruct (f x), (f y); reflexivity.
  - congruence.
Qed.

Lemma zip_fst_take {A B} (l : list A) (k : list B) :
  map fst (zip l k) = take (length k) l.
Proof.
  revert k. induction l as [|a l IH]; intros [|b k]; simpl; try reflexivity.
  rewrite IH. reflexivity.
Qed.

Section Detections.
Context `{PolygonTest}.

Lemma detect_boxes pts dets :
  detect pts dets =
    existsb (fun b => Qle_bool 0 (pointPolygonTest pts (centroid b))) (map fst dets).
Proof.
  induction dets as [|[b cls] dets IH]; simpl; [reflexivity|].
  rewrite <- IH. destruct (Qle_bool 0 _); reflexivity.
Qed.


(** X8: the class of a detection plays no part in the verdicts: with other
    class ids of the same number (ids of the detector's own table) every
    space gets the same verdict, and the session, its counters and the
    labels of the spaces come out the same, so an object of any class
    occupies a space. The order of the detections plays no part either.
    Boxes beyond the number of class ids are ignored. *)
Theorem verdict_ignores_class_and_order (boxes : list box) (clss : list Z) :
  (forall clss' pm,
      length clss' = length clss ->
      process_data boxes clss' pm = process_data boxes clss pm) /\
  (forall boxes' clss' pm,
      Permutation (zip boxes clss) (zip boxes' clss') ->
      process_data boxes' clss' pm = process_data boxes clss pm) /\
  (forall r, rg_occupied r boxes clss =
             rg_occupied r (take (length clss) boxes) clss).
Proof.
  split; [|split].
  - intros clss' pm Hlen. unfold process_data.
    rewrite (regions_loop_ext boxes clss' boxes clss (json pm)); [reflexivity|].
    intros r _. unfold rg_occupied. rewrite !detect_boxes, !zip_fst_take, Hlen.
    reflexivity.
  - intros boxes' clss' pm Hp. unfold process_data.
    rewrite (regions_loop_ext boxes' clss' boxes clss (json pm)); [reflexivity|].
    intros r _. unfold rg_occupied. rewrite !detect_boxes.
    apply existsb_perm, Permutation_map, Permutation_sym, Hp.
  - intros r. unfold rg_occupied. rewrite !detect_boxes, !zip_fst_take.
    rewrite take_take, Nat.min_id. reflexivity.
Qed.

End Detections.

Lemma verdict_ignores_class_and_order_witness :
  @process_data rect_pointPolygonTest [car] [7] lot_session =
  @process_data rect_pointPolygonTest [car] [0] lot_session.
Proof.
  destruct (@verdict_ignores_class_and_order rect_pointPolygonTest [car] [0])
    as (Hclass & _ & _).
  apply Hclass. reflexivity.
Defined.


(** ** What is drawn *)

(** X9: the number of a space is written 10 pixels above the first vertex
    of its polygon as listed (the array handed over has one point per row,
    and only row 0 is read), in the colour chosen by the verdict; this is
    the top-left corner of the polygon's bounding box, the sort key, only
    when the first vertex has both the least x and the least y. On a
    polygon without points the function raises [IndexError]. *)
Theorem label_is_anchored_at_first_vertex (r : region) (is_occupied : bool)
    (number : Z) (occupied_color available_color : Z * Z * Z) :
  (points r = [] ->
   draw_polygon_with_number (reshape_points r) is_occupied number
     occupied_color available_color = Fail IndexError) /\
  (forall p rest,
      points r = p :: rest ->
      draw_polygon_with_number (reshape_points r) is_occupied number
        occupied_color available_color =
        Done {| label_color := if is_occupied then occupied_color else available_color;
                label_number := number;
                label_org := (fst p, snd p - 10) |}) /\
  (forall p rest min_y min_x l,
      points r = p :: rest -> get_min_coords r = Ok (min_y, min_x) ->
      draw_polygon_with_number (reshape_points r) is_occupied number
        occupied_color available_color = Done l ->
      (label_org l = (min_x, min_y - 10) <-> p = (min_x, min_y))).
Proof.
  split; [|split].
  - apply draw_no_vertex.
  - intros p rest. apply draw_first_vertex.
  - intros p rest min_y min_x l Hp _.
    rewrite (draw_first_vertex r p rest _ _ _ _ Hp). intros [= <-]. simpl.
    destruct p as [x y]; simpl. split; intros [= Hx Hy]; subst x.
    + replace y with min_y by lia. reflexivity.
    + subst y. reflexivity.
Qed.

Lemma label_is_anchored_at_first_vertex_witness :
  draw_polygon_with_number (reshape_points region_a) true 2 occ arc =
    Done (mkLabel (0, 255, 0) 2 (1553, 38)) /\
  ~ (1553, 38) = (1553, 40 - 10).
Proof.
  destruct (label_is_anchored_at_first_vertex region_a true 2 occ arc)
    as (_ & Hdraw & Hkey).
  split.
  - apply (Hdraw (1553, 48) [(1718, 40); (1735, 128); (1577, 133)]). reflexivity.
  - intros E.
    apply (Hkey (1553, 48) [(1718, 40); (1735, 128); (1577, 133)] 40 1553
                (mkLabel (0, 255, 0) 2 (1553, 38)) eq_refl eq_refl eq_refl) in E.
    discriminate E.
Defined.

Section Labels.
Context `{PolygonTest}.
Variables (boxes : list box) (clss : list Z).

Lemma regions_loop_labels regions :
  Forall (fun r => points r <> []) regions ->
  forall idx fs es drawn pm fs' es' drawn' pm',
    regions_loop boxes clss idx regions fs es drawn pm =
      (Done (fs', es', drawn'), pm') ->
    drawn' = drawn ++ frame_labels boxes clss idx regions.
Proof.
  induction 1 as [|r rest Hr _ IH]; intros idx fs es drawn pm fs' es' drawn' pm' E.
  - simpl in E. injection E as <- <- <- <-. simpl. rewrite app_nil_r. reflexivity.
  - rewrite regions_loop_cons in E. cbv zeta in E. simpl.
    destruct (points r) as [|p ps] eqn:Hp; [congruence|].
    rewrite (draw_first_vertex r p ps _ _ _ _ Hp) in E.
    destruct (update_spot idx (rg_occupied r boxes clss) pm) as [[[]|e] pm1];
      [|discriminate].
    apply IH in E. rewrite E, <- app_assoc. reflexivity.
Qed.

Lemma regions_loop_empty_polygon regions :
  Exists (fun r => points r = []) regions ->
  forall idx fs es drawn pm,
    exists e, fst (regions_loop boxes clss idx regions fs es drawn pm) = Fail e.
Proof.
  induction regions as [|r rest IH]; intros Hex idx fs es drawn pm.
  - inversion Hex.
  - rewrite regions_loop_cons. cbv zeta.
    destruct (draw_polygon_with_number _ _ _ _ _) as [l|e] eqn:Ed; [|eauto].
    destruct (update_spot idx (rg_occupied r boxes clss) pm) as [[[]|e] pm1];
      [|eauto].
    apply IH. apply Exists_cons in Hex as [Hr|Hex]; [|exact Hex].
    rewrite (draw_no_vertex r _ _ _ _ Hr) in Ed. discriminate.
Qed.

Lemma frame_labels_lookup regions :
  Forall (fun r => points r <> []) regions ->
  forall idx (i : nat) r,
    regions !! i = Some r ->
    exists p rest,
      points r = p :: rest /\
      frame_labels boxes clss idx regions !! i =
        Some {| label_color := if rg_occupied r boxes clss then occ else arc;
                label_number := idx + Z.of_nat i + 1;
                label_org := (fst p, snd p - 10) |}.
Proof.
  induction 1 as [|r0 rest Hr _ IH]; intros idx i r Hi; [discriminate|].
  simpl. destruct (points r0) as [|p ps] eqn:Hp; [congruence|].
  destruct i as [|i]; simpl in *.
  - injection Hi as <-. exists p, ps. split; [exact Hp|].
    do 2 f_equal. lia.
  - destruct (IH (idx + 1) i r Hi) as (p' & rest' & Hp' & ->).
    exists p', rest'. split; [exact Hp'|]. do 2 f_equal. lia.
Qed.

(** X10: when every polygon of the session has a point, the drawing never
    interferes: the frame-cycle leaves the object as the state machine
    alone does, and when it completes it has drawn one label per space, in
    the order of the configuration: space i+1 carries the number i+1, the
    colour (0,255,0) when occupied in this frame and (0,0,255) when not,
    10 pixels above its first vertex. When some polygon has no point the
    frame-cycle never completes, and [Occupancy] and [Available] are never
    refreshed. *)
Theorem frame_draws_one_label_per_space pm :
  (Forall (fun r => points r <> []) (json pm) ->
   snd (process_data boxes clss pm) = snd (states_frame boxes clss pm) /\
   (forall e, fst (states_frame boxes clss pm) = Raise e <->
              fst (process_data boxes clss pm) = Fail (Exn e)) /\
   (forall drawn,
       fst (process_data boxes clss pm) = Done drawn ->
       length drawn = length (json pm) /\
       forall (i : nat) r,
         json pm !! i = Some r ->
         exists p rest,
           points r = p :: rest /\
           drawn !! i =
             Some {| label_color := if rg_occupied r boxes clss
                                    then (0, 255, 0) else (0, 0, 255);
                     label_number := Z.of_nat i + 1;
                     label_org := (fst p, snd p - 10) |})) /\
  (Exists (fun r => points r = []) (json pm) ->
   (exists e, fst (process_data boxes clss pm) = Fail e) /\
   Occupancy (pr_info (snd (process_data boxes clss pm))) = Occupancy (pr_info pm) /\
   Available (pr_info (snd (process_data boxes clss pm))) = Available (pr_info pm)).
Proof.
  split.
  - intros Hne. destruct (process_data_state boxes clss pm Hne) as [Hsnd Hfst].
    split; [exact Hsnd|]. split.
    + intros e. destruct (fst (states_frame boxes clss pm)) as [[]|e0].
      * destruct Hfst as (drawn & -> & _). split; discriminate.
      * rewrite Hfst. split; congruence.
    + intros drawn Hd. unfold process_data in Hd.
      destruct (regions_loop boxes clss 0 (json pm) 0
                  (Z.of_nat (length (json pm))) [] pm)
        as [[[[fs es] drawn0]|e] pm'] eqn:E; [|discriminate].
      simpl in Hd. injection Hd as <-.
      apply (regions_loop_labels (json pm) Hne) in E. simpl in E. subst drawn0.
      split.
      * clear -Hne. generalize 0 at 1. induction Hne as [|r rest Hr _ IH]; intros idx.
        -- reflexivity.
        -- simpl. destruct (points r); [congruence|]. simpl. rewrite IH. reflexivity.
      * intros i r Hi.
        destruct (frame_labels_lookup (json pm) Hne 0 i r Hi) as (p & rest & Hp & Hl).
        exists p, rest. split; [exact Hp|]. rewrite Hl. reflexivity.
  - intros Hex.
    assert (Hfail := regions_loop_empty_polygon (json pm) Hex 0 0
                       (Z.of_nat (length (json pm))) [] pm).
    assert (Hstale := regions_loop_preserves boxes clss
              (fun x => Occupancy (pr_info x) = Occupancy (pr_info pm) /\
                        Available (pr_info x) = Available (pr_info pm))).
    assert (Hst : forall idx v pm0,
               Occupancy (pr_info pm0) = Occupancy (pr_info pm) /\
               Available (pr_info pm0) = Available (pr_info pm) ->
               Occupancy (pr_info (snd (update_spot idx v pm0))) = Occupancy (pr_info pm) /\
               Available (pr_info (snd (update_spot idx v pm0))) = Available (pr_info pm)).
    { intros idx v pm0 [Ho Ha].
      destruct (update_spot_frame idx v pm0) as (_ & _ & -> & -> & _). auto. }
    specialize (Hstale Hst (json pm) 0 0 (Z.of_nat (length (json pm))) [] pm
                       (conj eq_refl eq_refl)).
    unfold process_data.
    destruct (regions_loop boxes clss 0 (json pm) 0
                (Z.of_nat (length (json pm))) [] pm)
      as [[[[fs es] drawn0]|e] pm'] eqn:E; simpl in *.
    + destruct Hfail as [e He]. discriminate.
    + split; [eauto | exact Hstale].
Qed.

End Labels.

Lemma frame_draws_one_label_per_space_witness :
  fst (@process_data rect_pointPolygonTest [car] [0] lot_session) =
    Done [mkLabel (0, 255, 0) 1 (500, 0)] /\
  exists e,
    fst (@process_data rect_pointPolygonTest [car] [0]
           (mkPM [mkRegion []] (mkInfo 0 0 0 0 0) (Some 6000%Q) (init_spots 1))) =
    Fail e.
Proof.
  split; [reflexivity|].
  destruct (@frame_draws_one_label_per_space rect_pointPolygonTest [car] [0]
              (mkPM [mkRegion []] (mkInfo 0 0 0 0 0) (Some 6000%Q) (init_spots 1)))
    as [_ Hempty].
  apply Hempty. apply Exists_cons_hd. reflexivity.
Defined.

(** * The views *)

(** ** CreateAnnotationView.post *)

Lemma get_min_coords_points (r : region) (k : Z * Z) :
  get_min_coords r = Ok k -> points r <> [].
Proof.
  unfold get_min_coords. destruct (points r); [discriminate | discriminate].
Qed.

Lemma sorting_annotation_data_total (l : list region) :
  Forall (fun r => points r <> []) l ->
  exists sorted,
    sorting_annotation_data l = Ok sorted /\ Permutation l sorted /\
    Forall (fun r => points r <> []) sorted.
Proof.
  intros HF.
  assert (HK : Forall (fun r => exists k, get_min_coords r = Ok k) l).
  { eapply List.Forall_impl; [|exact HF]. apply get_min_coords_Ok. }
  eexists. split; [apply sorting_annotation_data_Ok; split; [exact HK | reflexivity]|].
  assert (Hp : Permutation l
                 (map snd (sort_by_key (map (fun r => (key_of r, r)) l)))).
  { rewrite <- sort_by_key_perm, map_map, map_id. reflexivity. }
  split; [exact Hp|]. eapply Permutation_Forall; [exact Hp | exact HF].
Qed.

Lemma sorting_annotation_data_raises (l : list region) (e : exn) :
  sorting_annotation_data l = Raise e ->
  e = ValueError /\ Exists (fun r => points r = []) l.
Proof.
  unfold sorting_annotation_data.
  destruct (decorate l) as [kl|e0] eqn:E; [discriminate|]. intros [= <-].
  revert E. induction l as [|r l IH]; simpl; [discriminate|].
  destruct (get_min_coords r) as [k|e1] eqn:Ek.
  - destruct (decorate l) as [kl|e2]; [discriminate|]. intros [= <-].
    destruct (IH eq_refl) as [-> Hex]. split; [reflexivity|].
    apply Exists_cons_tl, Hex.
  - intros [= <-]. unfold get_min_coords in Ek.
    destruct (points r) as [|p ps] eqn:Hp; [|discriminate].
    simpl in Ek. injection Ek as <-. split; [reflexivity|].
    apply Exists_cons_hd, Hp.
Qed.

Lemma sorting_annotation_data_points (l sorted : list region) :
  sorting_annotation_data l = Ok sorted ->
  Permutation l sorted /\ Forall (fun r => points r <> []) sorted.
Proof.
  intros E. apply sorting_annotation_data_Ok in E as [HK ->].
  assert (Hp : Permutation l
                 (map snd (sort_by_key (map (fun r => (key_of r, r)) l)))).
  { rewrite <- sort_by_key_perm, map_map, map_id. reflexivity. }
  split; [exact Hp|]. eapply Permutation_Forall; [exact Hp|].
  eapply List.Forall_impl; [|exact HK].
  intros r [k Hk]. eapply get_min_coords_points, Hk.
Qed.

Lemma open_json_insert (files : gmap string (list region)) path content :
  open_json (<[path := content]> files) path = Ok content.
Proof. unfold open_json. rewrite lookup_insert_eq. reflexivity. Qed.

Lemma init_from_storage (files : gmap string (list region)) path content price :
  files !! path = Some content ->
  __init__ (open_json files) (Some price) (Some path) =
    Ok (mkPM content (mkInfo 0 0 0 0 0) (Some price) (init_spots (length content))).
Proof. intros E. unfold __init__, open_json. rewrite E. reflexivity. Qed.

(** X11: for a payload of polygons whose points are pairs of integers
    (and the base-class constructor taken to succeed), an annotation
    request is answered 201 exactly when the user has a parking with an
    image, sends at least one polygon, each with at least one point, and
    the storage opens the annotation file for writing. Then the file of
    the parking holds the polygons sorted by (min-y, min-x), and the
    registry holds for the parking a new session built from that file:
    same polygons in the same order, the price of the parking, every
    counter at zero and every space available, whatever session and totals
    the parking had before. Other files and other sessions are
    untouched. *)
Theorem create_stores_sorted_configuration (parking : Models.Parking)
    (annotation_data : list region) (open_w : string -> result unit) (w : World) :
  (Models.image parking <> EmptyString -> annotation_data <> [] ->
   Forall (fun r => points r <> []) annotation_data ->
   open_w (annotation_path parking) = Ok tt ->
   exists sorted,
     sorting_annotation_data annotation_data = Ok sorted /\
     CreateAnnotationView_post (Some parking) annotation_data open_w w =
       (Done (mkResponse (AnnotationSaved (annotation_filename parking)) 201),
        mkWorld (<[annotation_path parking := sorted]> (storage w))
                (<[Models.id parking :=
                     mkPM sorted (mkInfo 0 0 0 0 0)
                          (Some (Models.price_per_hour parking))
                          (init_spots (length sorted))]>
                   (parking_managers w)))) /\
  (forall p r,
      fst (CreateAnnotationView_post p annotation_data open_w w) = Done r ->
      status r = 201 ->
      exists parking',
        p = Some parking' /\ Models.image parking' <> EmptyString /\
        annotation_data <> [] /\
        Forall (fun r => points r <> []) annotation_data /\
        open_w (annotation_path parking') = Ok tt).
Proof.
  split.
  - intros Himg Hdata HF Hopen.
    destruct (sorting_annotation_data_total annotation_data HF) as (sorted & E & _ & _).
    exists sorted. split; [exact E|].
    unfold CreateAnnotationView_post.
    destruct (decide (Models.image parking = EmptyString)); [congruence|].
    destruct annotation_data as [|r0 rest]; [congruence|].
    rewrite E. cbv zeta. rewrite Hopen.
    rewrite (init_from_storage _ _ sorted) by apply lookup_insert_eq.
    reflexivity.
  - intros p r. unfold CreateAnnotationView_post.
    destruct p as [parking'|]; [|intros [= <-]; discriminate].
    destruct (decide (Models.image parking' = EmptyString));
      [intros [= <-]; discriminate|].
    destruct annotation_data as [|r0 rest]; [intros [= <-]; discriminate|].
    destruct (sorting_annotation_data (r0 :: rest)) as [sorted|e] eqn:E;
      [|discriminate].
    cbv zeta.
    destruct (open_w (annotation_path parking')) as [[]|e] eqn:Hopen;
      [|discriminate].
    intros _ _. exists parking'.
    split; [reflexivity|]. split; [assumption|]. split; [discriminate|].
    split; [|exact Hopen].
    destruct (sorting_annotation_data_points _ _ E) as [Hp HF].
    eapply Permutation_Forall; [apply Permutation_sym, Hp | exact HF].
Qed.

Lemma create_stores_sorted_configuration_witness :
  let pk := Models.mkParking 7 "Lot A" 6000%Q "parking_images/lot1.jpg" in
  exists w',
    CreateAnnotationView_post (Some pk) [region_a; region_b] writable (mkWorld ∅ ∅) =
      (Done (mkResponse (AnnotationSaved "lot1.jpg.json") 201), w') /\
    storage w' !! "annotations/lot1.jpg.json"%string = Some [region_b; region_a].
Proof.
  cbv zeta.
  destruct (create_stores_sorted_configuration
              (Models.mkParking 7 "Lot A" 6000%Q "parking_images/lot1.jpg")
              [region_a; region_b] writable (mkWorld ∅ ∅)) as [H _].
  assert (HF : Forall (fun r => points r <> []) [region_a; region_b])
    by (repeat constructor; discriminate).
  destruct (H ltac:(discriminate) ltac:(discriminate) HF eq_refl)
    as (sorted & Es & E).
  injection Es as <-. eexists. split; [exact E|]. reflexivity.
Defined.

(** X12: an annotation request that is not answered 201 never changes the
    registry of sessions, and never changes a file other than the
    annotation file of the parking. For a payload of polygons whose points
    are pairs of integers, a polygon without points ends the request with
    [ValueError], and a storage that does not open the file ends it with
    the exception of the storage; in both cases nothing was written and
    the world is as it was. *)
Theorem create_failure_changes_nothing (p : option Models.Parking)
    (annotation_data : list region) (open_w : string -> result unit) (w : World) :
  let w' := snd (CreateAnnotationView_post p annotation_data open_w w) in
  ((exists r, fst (CreateAnnotationView_post p annotation_data open_w w) = Done r /\
              status r = 201) \/
   (parking_managers w' = parking_managers w /\
    forall parking path,
      p = Some parking -> path <> annotation_path parking ->
      storage w' !! path = storage w !! path)) /\
  (p = None -> w' = w) /\
  (Exists (fun r => points r = []) annotation_data ->
   w' = w /\
   forall parking,
     p = Some parking -> Models.image parking <> EmptyString ->
     fst (CreateAnnotationView_post p annotation_data open_w w) =
       Fail (Exn ValueError)) /\
  (forall parking e,
      p = Some parking -> Models.image parking <> EmptyString ->
      annotation_data <> [] ->
      Forall (fun r => points r <> []) annotation_data ->
      open_w (annotation_path parking) = Raise e ->
      CreateAnnotationView_post p annotation_data open_w w = (Fail (Exn e), w)).
Proof.
  cbv zeta. unfold CreateAnnotationView_post.
  split; [|split; [|split]].
  - destruct p as [parking|]; [|right; split; [reflexivity | discriminate]].
    destruct (decide (Models.image parking = EmptyString));
      [right; split; [reflexivity | reflexivity]|].
    destruct annotation_data as [|r0 rest];
      [right; split; [reflexivity | reflexivity]|].
    destruct (sorting_annotation_data (r0 :: rest)) as [sorted|e] eqn:E;
      [|right; split; [reflexivity | reflexivity]].
    cbv zeta.
    destruct (open_w (annotation_path parking)) as [[]|e];
      [|right; split; [reflexivity | reflexivity]].
    destruct (__init__ _ _ _) as [pm|e].
    + left. eauto.
    + right. split; [reflexivity|]. simpl.
      intros parking' path [= <-] Hpath. apply lookup_insert_ne. congruence.
  - intros ->. reflexivity.
  - intros Hex.
    assert (Hsort : annotation_data <> [] ->
                    sorting_annotation_data annotation_data = Raise ValueError).
    { intros _. destruct (sorting_annotation_data annotation_data) as [sorted|e] eqn:E.
      - exfalso. destruct (sorting_annotation_data_points _ _ E) as [Hp HF].
        apply List.Exists_exists in Hex as (r & Hin & Hr).
        rewrite List.Forall_forall in HF.
        apply (HF r); [|exact Hr].
        eapply Permutation_in; [exact Hp | exact Hin].
      - destruct (sorting_annotation_data_raises _ _ E) as [-> _]. reflexivity. }
    destruct p as [parking|]; [|split; [reflexivity | discriminate]].
    destruct (decide (Models.image parking = EmptyString)) as [Hi|Hi].
    + split; [reflexivity|]. intros parking' [= <-] Hi'. congruence.
    + destruct annotation_data as [|r0 rest]; [inversion Hex|].
      rewrite Hsort by discriminate. split; [reflexivity|]. reflexivity.
  - intros parking e -> Hi Hdata HF Hopen.
    destruct (decide (Models.image parking = EmptyString)); [congruence|].
    destruct annotation_data as [|r0 rest]; [congruence|].
    destruct (sorting_annotation_data_total _ HF) as (sorted & -> & _).
    cbv zeta. rewrite Hopen. reflexivity.
Qed.

Lemma create_failure_changes_nothing_witness :
  fst (CreateAnnotationView_post (Some pk_lot) [region_a; mkRegion []] writable w_lot) =
    Fail (Exn ValueError) /\
  snd (CreateAnnotationView_post (Some pk_lot) [region_a; mkRegion []] writable w_lot) =
    w_lot /\
  CreateAnnotationView_post (Some pk_lot) [region_a; region_b] no_directory w_lot =
    (Fail (Exn OSError), w_lot).
Proof.
  destruct (create_failure_changes_nothing (Some pk_lot) [region_a; mkRegion []]
              writable w_lot) as (_ & _ & Hvalue & _).
  destruct (create_failure_changes_nothing (Some pk_lot) [region_a; region_b]
              no_directory w_lot) as (_ & _ & _ & Hopen).
  destruct Hvalue as [Hw Hfail].
  { apply Exists_cons_tl, Exists_cons_hd. reflexivity. }
  split; [apply (Hfail pk_lot); [reflexivity | discriminate]|].
  split; [exact Hw|].
  apply (Hopen pk_lot OSError); try reflexivity; try discriminate.
  repeat constructor; discriminate.
Defined.

(** ** CheckAnnotationsView.get after an annotation *)

(** X13: once an annotation request has been answered 201, the check view
    reports that the annotation of that parking exists, under the same file
    name, and the parking has a session in the registry. *)
Theorem check_finds_what_create_stored (parking : Models.Parking)
    (annotation_data : list region) (open_w : string -> result unit)
    (w : World) (r : Response) :
  fst (CreateAnnotationView_post (Some parking) annotation_data open_w w) = Done r ->
  status r = 201 ->
  let w' := snd (CreateAnnotationView_post (Some parking) annotation_data open_w w) in
  data r = AnnotationSaved (annotation_filename parking) /\
  CheckAnnotationsView_get (Some parking) w' =
    mkResponse (AnnotationExists true (annotation_filename parking)) 200 /\
  is_Some (parking_managers w' !! Models.id parking).
Proof.
  intros Hd Hs. revert Hd Hs. unfold CreateAnnotationView_post, CheckAnnotationsView_get.
  destruct (decide (Models.image parking = EmptyString));
    [intros [= <-]; discriminate|].
  destruct annotation_data as [|r0 rest]; [intros [= <-]; discriminate|].
  destruct (sorting_annotation_data (r0 :: rest)) as [sorted|e] eqn:E;
    [|discriminate].
  cbv zeta. destruct (open_w (annotation_path parking)) as [[]|e]; [|discriminate].
  rewrite (init_from_storage _ _ sorted) by apply lookup_insert_eq.
  simpl. intros [= <-] _. simpl.
  rewrite !lookup_insert_eq.
  split; [reflexivity|]. split; [|eauto].
  rewrite bool_decide_eq_true_2 by eauto. reflexivity.
Qed.

Lemma check_finds_what_create_stored_witness :
  let pk := Models.mkParking 7 "Lot A" 6000%Q "parking_images/lot1.jpg" in
  CheckAnnotationsView_get (Some pk)
    (snd (CreateAnnotationView_post (Some pk) [region_a; region_b] writable
            (mkWorld ∅ ∅))) =
  mkResponse (AnnotationExists true "lot1.jpg.json") 200.
Proof.
  cbv zeta.
  apply (check_finds_what_create_stored
           (Models.mkParking 7 "Lot A" 6000%Q "parking_images/lot1.jpg")
           [region_a; region_b] writable (mkWorld ∅ ∅)
           (mkResponse (AnnotationSaved "lot1.jpg.json") 201));
    reflexivity.
Defined.


(** ** ProcessImageView.post *)

Section ProcessImage.
Context `{PolygonTest}.

(** X14: an image request is never answered 200, and never with the 404 of
    a missing session: every answer it gives is the 404 of a user without
    parking or one of the three 400 (no image of the parking, no annotation
    file, no image file in the request). When a frame is handed over, the
    request ends in an exception, which is the [AttributeError] of
    [parking.name] whenever the frame-cycle itself completes. *)
Theorem process_image_never_answers_200 (p : option Models.Parking)
    (image_file : option (list box * list Z)) (w : World) :
  (forall r,
      fst (ProcessImageView_post p image_file w) = Done r ->
      (status r = 404 /\ p = None) \/
      (status r = 400 /\
       exists parking,
         p = Some parking /\
         (Models.image parking = EmptyString \/
          storage w !! annotation_path parking = None \/
          image_file = None))) /\
  (forall parking boxes clss pm,
      p = Some parking -> image_file = Some (boxes, clss) ->
      Models.image parking <> EmptyString ->
      is_Some (storage w !! annotation_path parking) ->
      parking_managers w !! Models.id parking = Some pm ->
      (exists e, fst (ProcessImageView_post p image_file w) = Fail e) /\
      ((exists drawn, fst (process_data boxes clss pm) = Done drawn) ->
       fst (ProcessImageView_post p image_file w) = Fail AttributeError)).
Proof.
  split.
  - intros r. unfold ProcessImageView_post.
    destruct p as [parking|]; [|intros [= <-]; left; auto].
    destruct (decide (Models.image parking = EmptyString)) as [Hi|Hi];
      [intros [= <-]; right; split; [reflexivity | eauto]|].
    destruct (storage w !! annotation_path parking) as [content|] eqn:Hf;
      [|intros [= <-]; right; split; [reflexivity | eauto 6]].
    destruct (parking_managers w !! Models.id parking) as [pm|] eqn:Hm.
    + rewrite Hm. destruct image_file as [[boxes clss]|];
        [|intros [= <-]; right; split; [reflexivity | eauto 6]].
      destruct (process_data boxes clss pm) as [[drawn|e] pm']; discriminate.
    + rewrite (init_from_storage _ _ content) by exact Hf.
      rewrite lookup_insert_eq.
      destruct image_file as [[boxes clss]|];
        [|intros [= <-]; right; split; [reflexivity | eauto 6]].
      destruct (process_data boxes clss _) as [[drawn|e] pm']; discriminate.
  - intros parking boxes clss pm -> -> Hi [content Hf] Hm.
    unfold ProcessImageView_post.
    destruct (decide (Models.image parking = EmptyString)); [congruence|].
    rewrite Hf, Hm, Hm.
    destruct (process_data boxes clss pm) as [[drawn|e] pm']; simpl.
    + split; [eauto | reflexivity].
    + split; [eauto|]. intros [drawn [=]].
Qed.

(** X15: an image request for a parking that has an annotation file but no
    session builds the session from the file and registers it before it
    looks at the image of the request: a request without image is answered
    400 and still leaves a fresh session in the registry. When the parking
    has a session, a request without image leaves the world as it is. *)
Theorem process_image_creates_session_first (parking : Models.Parking)
    (content : list region) (w : World) :
  Models.image parking <> EmptyString ->
  storage w !! annotation_path parking = Some content ->
  (parking_managers w !! Models.id parking = None ->
   ProcessImageView_post (Some parking) None w =
     (Done (mkResponse (ErrorBody "No image file provided") 400),
      mkWorld (storage w)
        (<[Models.id parking :=
             mkPM content (mkInfo 0 0 0 0 0)
                  (Some (Models.price_per_hour parking))
                  (init_spots (length content))]> (parking_managers w)))) /\
  (is_Some (parking_managers w !! Models.id parking) ->
   ProcessImageView_post (Some parking) None w =
     (Done (mkResponse (ErrorBody "No image file provided") 400), w)).
Proof.
  intros Hi Hf. unfold ProcessImageView_post.
  destruct (decide (Models.image parking = EmptyString)); [congruence|].
  rewrite Hf. split.
  - intros Hm. rewrite Hm.
    rewrite (init_from_storage _ _ content) by exact Hf.
    rewrite lookup_insert_eq. reflexivity.
  - intros [pm Hm]. rewrite Hm, Hm. destruct w; reflexivity.
Qed.

(** X16: an image request with a frame, for a parking that has an
    annotation file and a session, advances that session by one
    frame-cycle and nothing else: the session of the registry becomes what
    [process_data] leaves, the other sessions and the files stay, although
    the request itself ends in an exception. Without a session the
    frame-cycle is run on the session built from the file. *)
Theorem process_image_advances_the_session (parking : Models.Parking)
    (boxes : list box) (clss : list Z) (content : list region) (w : World) :
  Models.image parking <> EmptyString ->
  storage w !! annotation_path parking = Some content ->
  let pm :=
    match parking_managers w !! Models.id parking with
    | Some pm => pm
    | None => mkPM content (mkInfo 0 0 0 0 0)
                   (Some (Models.price_per_hour parking))
                   (init_spots (length content))
    end in
  let w' := snd (ProcessImageView_post (Some parking) (Some (boxes, clss)) w) in
  storage w' = storage w /\
  parking_managers w' !! Models.id parking =
    Some (snd (process_data boxes clss pm)) /\
  (forall other, other <> Models.id parking ->
                 parking_managers w' !! other = parking_managers w !! other).
Proof.
  intros Hi Hf. unfold ProcessImageView_post.
  destruct (decide (Models.image parking = EmptyString)); [congruence|].
  rewrite Hf.
  destruct (parking_managers w !! Models.id parking) as [pm|] eqn:Hm.
  - rewrite Hm. cbv zeta.
    destruct (process_data boxes clss pm) as [[drawn|e] pm']; simpl;
      (split; [reflexivity|]; split; [apply lookup_insert_eq|];
       intros other Ho; apply lookup_insert_ne; congruence).
  - rewrite (init_from_storage _ _ content) by exact Hf.
    rewrite lookup_insert_eq. cbv zeta.
    destruct (process_data boxes clss _) as [[drawn|e] pm']; simpl;
      (split; [reflexivity|]; split; [apply lookup_insert_eq|];
       intros other Ho; rewrite !lookup_insert_ne by congruence; reflexivity).
Qed.

End ProcessImage.

Lemma process_image_never_answers_200_witness :
  fst (@ProcessImageView_post rect_pointPolygonTest (Some pk_lot) (Some ([car], [0]))
         (mkWorld (storage w_lot) {[ 7 := lot_session ]})) = Fail AttributeError.
Proof.
  destruct (@process_image_never_answers_200 rect_pointPolygonTest (Some pk_lot)
              (Some ([car], [0])) (mkWorld (storage w_lot) {[ 7 := lot_session ]}))
    as [_ Hframe].
  destruct (Hframe pk_lot [car] [0] lot_session eq_refl eq_refl) as [_ Hattr].
  - discriminate.
  - eexists. reflexivity.
  - reflexivity.
  - apply Hattr. eexists. vm_compute. reflexivity.
Defined.

Lemma process_image_creates_session_first_witness :
  exists w',
    @ProcessImageView_post rect_pointPolygonTest (Some pk_lot) None w_lot =
      (Done (mkResponse (ErrorBody "No image file provided") 400), w') /\
    parking_managers w' !! 7 = Some lot_session.
Proof.
  destruct (@process_image_creates_session_first rect_pointPolygonTest pk_lot
              one_space w_lot) as [Hnew _].
  - discriminate.
  - reflexivity.
  - eexists. split; [apply Hnew; reflexivity|]. reflexivity.
Defined.

Lemma process_image_advances_the_session_witness :
  parking_managers
    (snd (@ProcessImageView_post rect_pointPolygonTest (Some pk_lot)
            (Some ([car], [0])) w_lot)) !! 7 =
  Some (snd (@process_data rect_pointPolygonTest [car] [0] lot_session)).
Proof.
  destruct (@process_image_advances_the_session rect_pointPolygonTest pk_lot
              [car] [0] one_space w_lot) as (_ & Hs & _).
  - discriminate.
  - reflexivity.
  - exact Hs.
Defined.

(** ** The sessions of a running server *)

Section Served.
Context `{PolygonTest}.






End Served.



(** * serializers.py and the registration view *)

Lemma string_get_Some (s : string) (n : nat) (c : Ascii.ascii) :
  String.get n s = Some c ->
  exists pre post, s = String.append pre (String c post) /\ String.length pre = n.
Proof.
  revert n. induction s as [|a s IH]; intros n; simpl; [destruct n; discriminate|].
  destruct n as [|n].
  - intros [= <-]. exists EmptyString, s. auto.
  - intros Hg. destruct (IH n Hg) as (pre & post & -> & Hl).
    exists (String a pre), post. simpl. auto.
Qed.

Lemma prefix_09 (value : string) :
  String.prefix "09" value = true <-> exists t, value = String.append "09" t.
Proof.
  split.
  - intros Hp. apply String.prefix_correct in Hp.
    destruct value as [|a [|b t]]; try discriminate.
    simpl in Hp. injection Hp as -> ->. exists t. reflexivity.
  - intros [t ->]. apply String.prefix_correct. simpl. destruct t; reflexivity.
Qed.

(** X18: [validate_phone_number] accepts exactly the strings of ten
    characters that start with 09 and have 3, 4, 5, 6, 8 or 9 as third
    character, and returns them unchanged; the seven characters that follow
    are not looked at. Every other string, the empty one and the short ones
    included, is rejected with "Invalid phone number": the index [value[2]]
    is never out of range. *)
Theorem phone_number_format (value : string) :
  (validate_phone_number value = Valid value \/
   validate_phone_number value = Invalid "Invalid phone number") /\
  (validate_phone_number value = Valid value <->
   exists third rest,
     value = String.append "09" (String.append third rest) /\
     third ∈ ["3"; "4"; "5"; "6"; "8"; "9"]%string /\
     String.length rest = 7%nat).
Proof.
  unfold validate_phone_number.
  destruct (String.prefix "09" value) eqn:Hp; cbn [negb].
  - apply prefix_09 in Hp as [t ->].
    destruct t as [|c rest].
    + split; [right; reflexivity|]. split; [discriminate|].
      intros (third & rest & E & Hin & _). simpl in E.
      apply list_elem_of_In in Hin. simpl in Hin.
      repeat destruct Hin as [<-|Hin]; try discriminate. destruct Hin.
    + change (String.length (String.append "09" (String c rest)))
        with (S (S (S (String.length rest)))).
      change (String.get 2 (String.append "09" (String c rest))) with (Some c).
      change (Nat.eqb (S (S (S (String.length rest)))) 10)
        with (Nat.eqb (String.length rest) 7).
      destruct (Nat.eqb (String.length rest) 7) eqn:Hlen; cbn [negb].
      * apply Nat.eqb_eq in Hlen.
        destruct (decide (String c EmptyString ∈
                            ["3"; "4"; "5"; "6"; "8"; "9"]%string)) as [Hin|Hin].
        -- split; [left; reflexivity|]. split; [|reflexivity].
           intros _. exists (String c EmptyString), rest. auto.
        -- split; [right; reflexivity|]. split; [discriminate|].
           intros (third & rest' & E & Hin' & _). exfalso. apply Hin.
           apply list_elem_of_In in Hin'. simpl in Hin'.
           repeat destruct Hin' as [<-|Hin']; simpl in E;
             try (injection E as -> _; set_solver).
           destruct Hin'.
      * split; [right; reflexivity|]. split; [discriminate|].
        intros (third & rest' & E & Hin' & Hl). exfalso.
        apply Nat.eqb_neq in Hlen. apply Hlen.
        apply list_elem_of_In in Hin'. simpl in Hin'.
        repeat destruct Hin' as [<-|Hin']; simpl in E;
          try (injection E as _ ->; exact Hl).
        destruct Hin'.
  - split; [right; reflexivity|]. split; [discriminate|].
    intros (third & rest & -> & _).
    assert (Ht : String.prefix "09" (String.append "09" (String.append third rest)) = true)
      by (apply prefix_09; eauto).
    congruence.
Qed.

Ltac in_list := apply list_elem_of_In; simpl; auto 10.
Ltac not_in_list :=
  let Hin := fresh "Hin" in
  intros Hin; apply list_elem_of_In in Hin; simpl in Hin;
  repeat (destruct Hin as [Hin|Hin]; [discriminate Hin|]); exact Hin.

Lemma phone_number_format_witness :
  validate_phone_number "0931234567" = Valid "0931234567"%string /\
  validate_phone_number "09" = Invalid "Invalid phone number" /\
  validate_phone_number "093abcdefg" = Valid "093abcdefg"%string.
Proof.
  split; [|split].
  - apply (phone_number_format "0931234567"). exists "3"%string, "1234567"%string.
    split; [reflexivity|]. split; [in_list | reflexivity].
  - destruct (phone_number_format "09") as [[Hv|Hi] _]; [discriminate Hv | exact Hi].
  - apply (phone_number_format "093abcdefg"). exists "3"%string, "abcdefg"%string.
    split; [reflexivity|]. split; [in_list | reflexivity].
Defined.

Lemma split_register_data_from {V : Type} (items : list (string * V)) :
  forall (u p : gmap string V),
    NoDup (map fst items) ->
    (forall k, In k (map fst items) -> u !! k = None /\ p !! k = None) ->
    let d := foldl (fun (d : gmap string V * gmap string V) (kv : string * V) =>
                      if decide (fst kv ∈ user_keys)
                      then (<[fst kv := snd kv]> (fst d), snd d)
                      else (fst d, <[fst kv := snd kv]> (snd d)))
                   (u, p) items in
    forall k v,
      (fst d !! k = Some v <->
       u !! k = Some v \/ (In (k, v) items /\ k ∈ user_keys)) /\
      (snd d !! k = Some v <->
       p !! k = Some v \/ (In (k, v) items /\ k ∉ user_keys)).
Proof.
  induction items as [|[k0 v0] items IH]; intros u p Hnd Hfresh; simpl.
  - intros k v. split; (split; [auto | intros [?|[[] _]]; assumption]).
  - apply NoDup_cons in Hnd as [Hk0 Hnd].
    assert (Hk0' : ~ In k0 (map fst items)) by (rewrite <- list_elem_of_In; exact Hk0).
    destruct (Hfresh k0 (or_introl eq_refl)) as [Hu0 Hp0].
    destruct (decide (k0 ∈ user_keys)) as [Hin|Hin]; simpl.
    + intros k v.
      destruct (IH (<[k0 := v0]> u) p Hnd) with (k := k) (v := v) as [IHu IHp].
      { intros k' Hk'. destruct (Hfresh k' (or_intror Hk')) as [Hu Hp].
        split; [|exact Hp]. rewrite lookup_insert_ne; [exact Hu|].
        intros ->. contradiction. }
      split.
      * rewrite IHu. destruct (decide (k = k0)) as [->|Hne].
        -- rewrite lookup_insert_eq, Hu0. split.
           ++ intros [[= <-]|[Hi _]]; [right; split; [left; reflexivity | exact Hin]|].
              exfalso. apply Hk0'. apply in_map_iff. exists (k0, v). auto.
           ++ intros [[=]|[[[= <-]|Hi] _]]; [left; reflexivity|].
              exfalso. apply Hk0'. apply in_map_iff. exists (k0, v). auto.
        -- rewrite lookup_insert_ne by congruence. split.
           ++ intros [?|[? ?]]; auto.
           ++ intros [?|[[[= ? ?]|?] ?]]; auto. congruence.
      * rewrite IHp. split.
        -- intros [?|[? ?]]; auto.
        -- intros [?|[[[= -> ->]|?] ?]]; auto. contradiction.
    + intros k v.
      destruct (IH u (<[k0 := v0]> p) Hnd) with (k := k) (v := v) as [IHu IHp].
      { intros k' Hk'. destruct (Hfresh k' (or_intror Hk')) as [Hu Hp].
        split; [exact Hu|]. rewrite lookup_insert_ne; [exact Hp|].
        intros ->. contradiction. }
      split.
      * rewrite IHu. split.
        -- intros [?|[? ?]]; auto.
        -- intros [?|[[[= -> ->]|?] ?]]; auto. contradiction.
      * rewrite IHp. destruct (decide (k = k0)) as [->|Hne].
        -- rewrite lookup_insert_eq, Hp0. split.
           ++ intros [[= <-]|[Hi _]]; [right; split; [left; reflexivity | exact Hin]|].
              exfalso. apply Hk0'. apply in_map_iff. exists (k0, v). auto.
           ++ intros [[=]|[[[= <-]|Hi] _]]; [left; reflexivity|].
              exfalso. apply Hk0'. apply in_map_iff. exists (k0, v). auto.
        -- rewrite lookup_insert_ne by congruence. split.
           ++ intros [?|[? ?]]; auto.
           ++ intros [?|[[[= ? ?]|?] ?]]; auto. congruence.
Qed.

(** X19: the registration view sorts every item of the request into
    exactly one of the two serializers: [username], [phone_number] and
    [password] go to the user, with their values, and every other key
    (the image, the coordinates, the price, and any key nobody expects)
    goes to the parking; nothing is dropped and nothing is in both. *)
Theorem register_data_is_partitioned {V : Type} (items : list (string * V))
    (k : string) (v : V) :
  NoDup (map fst items) ->
  (fst (split_register_data items) !! k = Some v <->
   In (k, v) items /\ k ∈ ["username"; "phone_number"; "password"]%string) /\
  (snd (split_register_data items) !! k = Some v <->
   In (k, v) items /\ k ∉ ["username"; "phone_number"; "password"]%string) /\
  (In (k, v) items ->
   (fst (split_register_data items) !! k = Some v /\
    snd (split_register_data items) !! k = None) \/
   (fst (split_register_data items) !! k = None /\
    snd (split_register_data items) !! k = Some v)).
Proof.
  intros Hnd. unfold split_register_data.
  assert (Hgen := split_register_data_from items ∅ ∅ Hnd).
  cbv zeta in Hgen.
  assert (Hfresh : forall k, In k (map fst items) ->
                             (∅ : gmap string V) !! k = None /\
                             (∅ : gmap string V) !! k = None)
    by (intros; split; apply lookup_empty).
  specialize (Hgen Hfresh).
  set (d := foldl _ _ items) in *.
  assert (Hu : forall v', fst d !! k = Some v' <-> In (k, v') items /\ k ∈ user_keys).
  { intros v'. destruct (Hgen k v') as [-> _]. rewrite lookup_empty.
    split; [intros [[=]|?]; assumption | auto]. }
  assert (Hp : forall v', snd d !! k = Some v' <-> In (k, v') items /\ k ∉ user_keys).
  { intros v'. destruct (Hgen k v') as [_ ->]. rewrite lookup_empty.
    split; [intros [[=]|?]; assumption | auto]. }
  split; [apply Hu|]. split; [apply Hp|].
  intros Hin. destruct (decide (k ∈ user_keys)) as [Hk|Hk].
  - left. split; [apply Hu; auto|].
    apply eq_None_not_Some. intros [v' E].
    apply Hp in E as [_ E]. contradiction.
  - right. split; [|apply Hp; auto].
    apply eq_None_not_Some. intros [v' E].
    apply Hu in E as [_ E]. contradiction.
Qed.

Lemma register_data_is_partitioned_witness :
  fst (split_register_data
         [("username", 1); ("image", 2); ("phone_number", 3); ("admin", 4)]%string)
    !! "phone_number"%string = Some 3 /\
  snd (split_register_data
         [("username", 1); ("image", 2); ("phone_number", 3); ("admin", 4)]%string)
    !! "admin"%string = Some 4.
Proof.
  assert (Hnd : NoDup (map fst
            [("username", 1); ("image", 2); ("phone_number", 3); ("admin", 4)]%string)).
  { simpl. repeat (apply NoDup_cons; split; [not_in_list|]). apply NoDup_nil_2. }
  split.
  - apply (register_data_is_partitioned _ "phone_number"%string 3 Hnd).
    split; [simpl; auto | in_list].
  - apply (register_data_is_partitioned _ "admin"%string 4 Hnd).
    split; [simpl; auto | not_in_list].
Defined.
